(** * DataRecorder: acquisition loop and window normalisation

    A shallow embedding of [src/datarecorder.py] (class [DataRecorder]) and
    the properties of its session loop ([record_loop]), its capture
    ([_record_eeg_sample]) and its pad/trim step ([_padtrim_sample]).

    Conventions of the embedding:
    - Python [int] is [Z]; a number handed to the recorder (a frequency,
      a duration) is a rational [Q], standing for the Python number that
      is written that way; Python [float] arithmetic is IEEE binary64:
      operands and results are rounded to the nearest double, ties to
      even, and a result too large for a double is an infinity;
    - a NumPy array carries its shape explicitly, since the code unpacks
      [samples.shape] and an array without rows still has a column count;
    - [self.samples] is a finite map from field names to Python lists;
    - the [additional_variables] dict of [record_loop] is an association
      list, because the code iterates it in insertion order;
    - exceptions, the mutation of [self.samples] and the calls of the
      overridable hooks are threaded through a state-and-error monad. *)

From Stdlib Require Import QArith Qround SpecFloat.
From stdpp Require Import gmap strings list fin_maps.

Local Open Scope Z_scope.
Local Open Scope nat_scope.

(** ** Exceptions and results *)

Inductive exn :=
| AssertionError (key : string)
| KeyError (key : string)
| TypeError
| ValueError
| IndexError
| OverflowError.

Inductive result (A : Type) :=
| Ok (a : A)
| Raise (e : exn).
Arguments Ok {A} a.
Arguments Raise {A} e.

Definition rbind {A B : Type} (r : result A) (k : A → result B) : result B :=
  match r with
  | Ok a => k a
  | Raise e => Raise e
  end.

(** ** NumPy arrays of dimension one and two *)

Inductive ndarray :=
| Arr1 (v : list Q)
| Arr2 (nrows ncols : nat) (rows : list (list Q)).

(** [a.shape] *)
Definition shape (a : ndarray) : list nat :=
  match a with
  | Arr1 v => [length v]
  | Arr2 r c _ => [r; c]
  end.

(** The rows of a two-dimensional array agree with its shape. *)
Definition wf_array (a : ndarray) : Prop :=
  match a with
  | Arr1 _ => True
  | Arr2 r c rows => length rows = r ∧ Forall (λ row, length row = c) rows
  end.

(** [a[i, j]] for indices within the shape. *)
Definition getitem (a : ndarray) (i j : nat) : option Q :=
  match a with
  | Arr1 _ => None
  | Arr2 _ _ rows => rows !! i ≫= λ row, row !! j
  end.

(** [np.array(samples)] on a list of pulled samples: the empty list gives
    the one-dimensional array of shape (0,); samples of one common length
    [c] give shape (n, c); ragged input is refused. *)
Definition np_array (samples : list (list Q)) : result ndarray :=
  match samples with
  | [] => Ok (Arr1 [])
  | s :: rest =>
      if forallb (λ r, length r =? length s) rest
      then Ok (Arr2 (length samples) (length s) samples)
      else Raise ValueError
  end.

(** [a.T]: a one-dimensional array is its own transpose. *)
Definition transpose (a : ndarray) : ndarray :=
  match a with
  | Arr1 v => Arr1 v
  | Arr2 r c rows =>
      Arr2 c r (map (λ j, map (λ row, nth j row 0%Q) rows) (seq 0 c))
  end.

(** [np.ascontiguousarray(a)] changes the memory layout only. *)
Definition ascontiguousarray (a : ndarray) : ndarray := a.

(** [np.pad(a, ((r0, r1), (c0, c1)), 'constant')] on a 2-D array. *)
Definition np_pad (a : ndarray) (pad_width : (nat * nat) * (nat * nat))
  : result ndarray :=
  match a with
  | Arr1 _ => Raise ValueError
  | Arr2 r c rows =>
      let '((r0, r1), (c0, c1)) := pad_width in
      let width := c0 + c + c1 in
      Ok (Arr2 (r0 + r + r1) width
            (replicate r0 (replicate width 0%Q)
             ++ map (λ row, replicate c0 0%Q ++ row ++ replicate c1 0%Q) rows
             ++ replicate r1 (replicate width 0%Q)))
  end.

(** The end of the slice [:stop] on an axis of length [len]: a negative
    [stop] counts from the end, and the result is clipped to the axis. *)
Definition slice_stop (len : nat) (stop : Z) : nat :=
  if (stop <? 0)%Z then Z.to_nat (Z.of_nat len + stop)
  else Nat.min len (Z.to_nat stop).

(** [a[:, :stop]] *)
Definition slice_cols (a : ndarray) (stop : Z) : result ndarray :=
  match a with
  | Arr1 _ => Raise IndexError
  | Arr2 r c rows =>
      let n := slice_stop c stop in
      Ok (Arr2 r n (map (take n) rows))
  end.

(** [int(x)] on a float truncates toward zero. *)
Definition py_int (x : Q) : Z := Z.quot (Qnum x) (Zpos (Qden x)).

(** ** Python floats

    A [float] is an IEEE binary64 number: a finite value, an infinity or
    a NaN.  A finite value is kept as the rational it denotes, in lowest
    terms; the sign of a zero is not kept. *)
Inductive double :=
| Finite (q : Q)
| Infinite (negative : bool)
| NaN.

(** The integer nearest to [n / d], the even one of two equally near. *)
Definition round_half_even (n d : Z) : Z :=
  let fl := (n / d)%Z in
  match (2 * (n mod d) ?= d)%Z with
  | Lt => fl
  | Gt => (fl + 1)%Z
  | Eq => if Z.even fl then fl else (fl + 1)%Z
  end.

(** Numerator and denominator of [(n / d) / 2 ^ e]. *)
Definition scaled (n d e : Z) : Z * Z :=
  if (0 <=? e)%Z then (n, (d * 2 ^ e)%Z) else ((n * 2 ^ (- e))%Z, d).

(** The exponent of the unit in the last place of the double that
    [n / d] rounds to: the one that leaves 53 bits before the binary
    point, and never less than that of the subnormal numbers. *)
Definition binade (n d : Z) : Z :=
  let e1 := (Z.log2 n - Z.log2 d - 53)%Z in
  let '(a, b) := scaled n d e1 in
  let e2 := if (a / b <? 2 ^ 53)%Z then e1 else (e1 + 1)%Z in
  Z.max e2 (-1074).

(** [m * 2 ^ e] as a rational in lowest terms. *)
Definition dyadic (m e : Z) : Q :=
  Qred (if (0 <=? e)%Z then inject_Z (m * 2 ^ e)
        else (m # Z.to_pos (2 ^ (- e)))).

(** The double nearest to [n / d], for positive [n] and [d]. *)
Definition round_positive (n d : Z) : double :=
  let e := binade n d in
  let '(a, b) := scaled n d e in
  let m := round_half_even a b in
  if (0 <=? e)%Z && (2 ^ 1024 <=? m * 2 ^ e)%Z then Infinite false
  else Finite (dyadic m e).

Definition double_opp (x : double) : double :=
  match x with
  | Finite q => Finite (- q)
  | Infinite s => Infinite (negb s)
  | NaN => NaN
  end.

(** The double nearest to [q]: what a literal or an [int] written [q]
    becomes as a [float], and what an exact result is rounded to. *)
Definition round64 (q : Q) : double :=
  match Qnum q with
  | Z0 => Finite 0
  | Zpos n => round_positive (Zpos n) (Zpos (Qden q))
  | Zneg n => double_opp (round_positive (Zpos n) (Zpos (Qden q)))
  end.

(** [x * y] on floats. *)
Definition double_mul (x y : double) : double :=
  match x, y with
  | NaN, _ | _, NaN => NaN
  | Finite a, Finite b => round64 (a * b)
  | Infinite s, Finite b | Finite b, Infinite s =>
      match Qnum b with
      | Z0 => NaN
      | Zpos _ => Infinite s
      | Zneg _ => Infinite (negb s)
      end
  | Infinite s, Infinite t => Infinite (xorb s t)
  end.

(** [int(x)] on a float: truncation, which an infinity and a NaN refuse. *)
Definition int_of_double (x : double) : result Z :=
  match x with
  | Finite q => Ok (py_int q)
  | Infinite _ => Raise OverflowError
  | NaN => Raise ValueError
  end.

(** The float that a number becomes when it meets a float in an
    arithmetic operation: the double nearest to it.  A float is that
    double already and an [int] is converted; a number beyond the doubles
    can only be an [int], and the conversion refuses it. *)
Definition as_float (x : Q) : result double :=
  match round64 x with
  | Infinite _ => Raise OverflowError
  | y => Ok y
  end.

(** [float(n)] for an [int], as the multiplication of a float by an
    [int] converts it. *)
Definition float_of_int (n : Z) : result double := as_float (inject_Z n).

(** [sampling_frequency * duration] with the types that the signatures
    declare (lines 41, 70 and 154): the duration is a float, the double
    nearest to the decimal the caller wrote, and the frequency, an [int]
    or a float, is converted to one. *)
Definition float_product (sampling_frequency duration : Q) : result double :=
  rbind (as_float sampling_frequency)
    (λ x, Ok (double_mul x (round64 duration))).

(** [target_length = int(sampling_frequency * duration)] *)
Definition target_length (sampling_frequency duration : Q) : result Z :=
  rbind (float_product sampling_frequency duration) int_of_double.

(** The value of a float of Rocq's own specification of binary64, for
    comparison with it. *)
Definition SF2double (x : spec_float) : double :=
  match x with
  | S754_zero _ => Finite 0
  | S754_infinity s => Infinite s
  | S754_nan => NaN
  | S754_finite s m e =>
      if s then Finite (- dyadic (Zpos m) e) else Finite (dyadic (Zpos m) e)
  end.

(** [DataRecorder._padtrim_sample] *)
Definition _padtrim_sample (samples : ndarray) (sampling_frequency duration : Q)
  : result ndarray :=
  match shape samples with
  | [C; T] =>
      rbind (target_length sampling_frequency duration) (λ target_length,
        if (Z.of_nat T <? target_length)%Z then
          let pad_width := ((0, 0), (0, Z.to_nat (target_length - Z.of_nat T))) in
          np_pad samples pad_width
        else
          slice_cols samples target_length)
  | _ => Raise ValueError
  end.

(** The array part of [DataRecorder._record_eeg_sample]: what is returned
    for the samples pulled during the capture window. *)
Definition assemble (pulled : list (list Q)) : result ndarray :=
  rbind (np_array pulled) (λ samples,
    let samples := transpose samples in
    Ok (ascontiguousarray samples)).

(** ** Python values held in the dataset and in the metadata dict *)

#[warnings="-register-all"] Inductive pyval :=
| PyNone
| PyInt (n : Z)
| PyFloat (x : double)
| PyStr (s : string)
| PyList (l : list pyval)
| PyArray (a : ndarray).

(** [isinstance(v, collections.abc.Iterable)]: strings, lists and arrays
    are iterable; [None] and numbers are not. *)
Definition is_iterable (v : pyval) : bool :=
  match v with
  | PyStr _ | PyList _ | PyArray _ => true
  | PyNone | PyInt _ | PyFloat _ => false
  end.

(** [len(v)]: for a two-dimensional array the number of its rows, which
    is what iterating it yields. *)
Definition py_len (v : pyval) : result nat :=
  match v with
  | PyStr s => Ok (String.length s)
  | PyList l => Ok (length l)
  | PyArray (Arr1 v) => Ok (length v)
  | PyArray (Arr2 _ _ rows) => Ok (length rows)
  | PyNone | PyInt _ | PyFloat _ => Raise TypeError
  end.

(** The elements produced by iterating [v], as [list.extend] consumes
    them: the characters of a string, the items of a list, the entries or
    rows of an array. *)
Definition py_iter (v : pyval) : result (list pyval) :=
  match v with
  | PyStr s =>
      Ok (map (λ c, PyStr (String c EmptyString)) (String.list_ascii_of_string s))
  | PyList l => Ok l
  | PyArray (Arr1 v) => Ok (map (λ x, PyFloat (Finite x)) v)
  | PyArray (Arr2 _ _ rows) => Ok (map (λ row, PyArray (Arr1 row)) rows)
  | PyNone | PyInt _ | PyFloat _ => Raise TypeError
  end.

Definition scale_array (a : ndarray) (n : Z) : ndarray :=
  match a with
  | Arr1 v => Arr1 (map (λ x, (x * inject_Z n)%Q) v)
  | Arr2 r c rows => Arr2 r c (map (map (λ x, (x * inject_Z n)%Q)) rows)
  end.

(** [v * n] for an integer [n]: the exact product of two [int]s, the
    float product of a [float] and the converted [int], the repetition
    of a string or list, the scaling of an array; undefined on [None]. *)
Definition py_mul (v : pyval) (n : Z) : result pyval :=
  match v with
  | PyNone => Raise TypeError
  | PyInt a => Ok (PyInt (a * n))
  | PyFloat x => rbind (float_of_int n) (λ y, Ok (PyFloat (double_mul x y)))
  | PyStr s => Ok (PyStr (String.concat "" (replicate (Z.to_nat n) s)))
  | PyList l => Ok (PyList (concat (replicate (Z.to_nat n) l)))
  | PyArray a => Ok (PyArray (scale_array a n))
  end.

(** A dict in insertion order. *)
Definition dict_keys (d : list (string * pyval)) : list string := d.*1.

Fixpoint dict_get (d : list (string * pyval)) (key : string) : result pyval :=
  match d with
  | [] => Raise (KeyError key)
  | (k, v) :: d' => if decide (k = key) then Ok v else dict_get d' key
  end.

(** ** The recorder and the world it acts on *)

Record StreamInfo := { stream_name : string; channel_count : nat }.

Record DataRecorder := {
  sampling_frequency : Q;
  samples : gmap string (list pyval)
}.

(** [DataRecorder.__init__] *)
Definition __init__ (sampling_frequency : Q) (additional_variables : list string)
  : DataRecorder :=
  {| sampling_frequency := sampling_frequency;
     samples := foldl (λ m variable, <[variable := []]> m)
                  {["recordings" := []]} additional_variables |}.

(** What the recorder does to the outside: console output, blocking
    waits, stream discovery, and the four overridable hooks (no-ops in the
    class, so only their invocation is recorded). *)
Inductive event :=
| Print (msg : string)
| Sleep (seconds : Q)
| ResolveByprop (timeout : Z)
| SignalStartRecording
| SignalEndRecording
| PresentStimuli
| EndStimuli.

Definition is_hook (ev : event) : bool :=
  match ev with
  | SignalStartRecording | SignalEndRecording | PresentStimuli | EndStimuli => true
  | Print _ | Sleep _ | ResolveByprop _ => false
  end.

Record world := {
  self : DataRecorder;
  events : list event;      (* oldest first *)
  captures : nat            (* capture windows opened so far *)
}.

Definition set_samples (w : world) (m : gmap string (list pyval)) : world :=
  {| self := {| sampling_frequency := sampling_frequency (self w); samples := m |};
     events := events w; captures := captures w |}.

(** ** State-and-exception monad *)

Definition M (A : Type) : Type := world → world * result A.

#[global] Instance M_ret : MRet M := λ A a w, (w, Ok a).
#[global] Instance M_bind : MBind M := λ A B k m w,
  match m w with
  | (w', Ok a) => k a w'
  | (w', Raise e) => (w', Raise e)
  end.

Definition raise {A : Type} (e : exn) : M A := λ w, (w, Raise e).
Definition lift {A : Type} (r : result A) : M A := λ w, (w, r).
Definition emit (ev : event) : M unit := λ w,
  ({| self := self w; events := events w ++ [ev]; captures := captures w |}, Ok tt).
Definition next_capture : M nat := λ w,
  ({| self := self w; events := events w; captures := S (captures w) |},
   Ok (captures w)).
Definition get_sampling_frequency : M Q := λ w, (w, Ok (sampling_frequency (self w))).

(** [self.samples[key]] followed by an in-place update of that list. *)
Definition update_field (key : string) (f : list pyval → list pyval) : M unit := λ w,
  match samples (self w) !! key with
  | None => (w, Raise (KeyError key))
  | Some l => (set_samples w (<[key := f l]> (samples (self w))), Ok tt)
  end.

(** [self.samples[key]], evaluated for its [KeyError] only. *)
Definition lookup_field (key : string) : M unit := λ w,
  match samples (self w) !! key with
  | None => (w, Raise (KeyError key))
  | Some _ => (w, Ok tt)
  end.

Fixpoint for_each {A : Type} (l : list A) (body : A → M unit) : M unit :=
  match l with
  | [] => mret tt
  | x :: l' => _ ← body x; for_each l' body
  end.

(** [for i in range(n)] *)
Definition for_range (n : Z) (body : nat → M unit) : M unit :=
  for_each (seq 0 (Z.to_nat n)) body.

(** The metadata check at the head of [record_loop]: the loop over the
    keys of [additional_variables] with its two accumulators. *)
Fixpoint check_variables (keys : list string)
    (additional_variables : list (string * pyval)) (iterations : Z)
    (list_variables object_variables : list string)
  : result (list string * list string) :=
  match keys with
  | [] => Ok (list_variables, object_variables)
  | key :: keys' =>
      rbind (dict_get additional_variables key) (λ v,
        if is_iterable v then
          rbind (py_len v) (λ n,
            if (Z.of_nat n =? iterations)%Z
            then check_variables keys' additional_variables iterations
                   (list_variables ++ [key]) object_variables
            else Raise (AssertionError key))
        else
          check_variables keys' additional_variables iterations
            list_variables (object_variables ++ [key]))
  end.

Definition validate (additional_variables : list (string * pyval)) (iterations : Z)
  : result (list string * list string) :=
  if 0 <? length additional_variables then
    check_variables (dict_keys additional_variables) additional_variables
      iterations [] []
  else Ok ([], []).

(** ** The methods of [DataRecorder] *)

Section Recorder.

(** The sensor side, outside the program: the streams that
    [resolve_byprop('type', 'EEG', timeout)] finds, and the samples that
    [inlet.pull_sample()] delivers while the [k]-th capture window of
    positive length [duration] is open. *)
Variable resolve_byprop : Z → list StreamInfo.
Variable pull_samples : StreamInfo → Q → nat → list (list Q).

Definition signal_start_recording : M unit := emit SignalStartRecording.
Definition signal_end_recording : M unit := emit SignalEndRecording.
Definition present_stimuli : M unit := emit PresentStimuli.
Definition end_stimuli : M unit := emit EndStimuli.

(** [time.sleep(seconds)] refuses a negative length. *)
Definition sleep (seconds : Q) : M unit :=
  if Qle_bool 0 seconds then emit (Sleep seconds) else raise ValueError.

(** [DataRecorder._initiate_stream] *)
Definition _initiate_stream (timeout : Z) : M (option (list StreamInfo)) :=
  _ ← emit (ResolveByprop timeout);
  let streams := resolve_byprop timeout in
  match streams with
  | [] => mret None
  | _ :: _ => mret (Some streams)
  end.

(** [DataRecorder._record_eeg_sample]: the [while] loop pulls nothing
    when [duration] is not positive, since the elapsed time is never
    below it. *)
Definition _record_eeg_sample (stream : list StreamInfo) (duration : Q)
  : M ndarray :=
  match stream !! 0 with
  | None => raise IndexError
  | Some info =>
      k ← next_capture;
      let samples :=
        if Qle_bool duration 0 then [] else pull_samples info duration k in
      lift (assemble samples)
  end.

(** [DataRecorder.record_one_iteration] *)
Definition record_one_iteration (stream : list StreamInfo)
    (duration rest_duration sampling_frequency : Q) : M ndarray :=
  _ ← sleep rest_duration;
  _ ← present_stimuli;
  sample ← _record_eeg_sample stream duration;
  _ ← end_stimuli;
  lift (_padtrim_sample sample sampling_frequency duration).

(** The body of the trial loop of [record_loop]. *)
Definition record_trial (stream : list StreamInfo) (duration rest_duration : Q)
    (i : nat) : M unit :=
  sampling_frequency ← get_sampling_frequency;
  sample ← record_one_iteration stream duration rest_duration
             sampling_frequency;
  update_field "recordings" (λ l, l ++ [PyArray sample]).

(** The bodies of the two closing loops of [record_loop]. *)
Definition extend_list_variable (additional_variables : list (string * pyval))
    (key : string) : M unit :=
  _ ← lookup_field key;
  v ← lift (dict_get additional_variables key);
  items ← lift (py_iter v);
  update_field key (λ l, l ++ items).

Definition extend_object_variable (additional_variables : list (string * pyval))
    (iterations : Z) (key : string) : M unit :=
  _ ← lookup_field key;
  v ← lift (dict_get additional_variables key);
  x ← lift (py_mul v iterations);
  update_field key (λ l, l ++ [x]).

(** [DataRecorder.record_loop] *)
Definition record_loop (stream : option (list StreamInfo)) (iterations : Z)
    (duration rest_duration : Q) (additional_variables : list (string * pyval))
  : M unit :=
  stream ← match stream with
           | None => _initiate_stream 4
           | Some s => mret (Some s)
           end;
  match stream with
  | None => emit (Print "No EEG stream was found.")
  | Some stream =>
      '(list_variables, object_variables) ←
        lift (validate additional_variables iterations);
      _ ← signal_start_recording;
      _ ← for_range iterations (record_trial stream duration rest_duration);
      _ ← signal_end_recording;
      _ ← for_each list_variables (extend_list_variable additional_variables);
      for_each object_variables
        (extend_object_variable additional_variables iterations)
  end.

End Recorder.

(** A world around a freshly constructed recorder. *)
Definition fresh (r : DataRecorder) : world :=
  {| self := r; events := []; captures := 0 |}.

(** The hook calls among the events of a world. *)
Definition hook_calls (w : world) : list event :=
  filter (λ ev, is_hook ev = true) (events w).

(** ** Specification vocabulary *)

(** A capture the array routines accept as two-dimensional: at least one
    sample, and every sample as long as the first. *)
Definition capture_ok (pulled : list (list Q)) : bool :=
  match pulled with
  | [] => false
  | s :: rest => forallb (λ r, length r =? length s) rest
  end.

(** The stream a session runs on: the one handed in, or else the
    streams found by the search with the default timeout, if any. *)
Definition bound_stream (resolve_byprop : Z → list StreamInfo)
    (stream : option (list StreamInfo)) : option (list StreamInfo) :=
  match stream with
  | Some s => Some s
  | None => match resolve_byprop 4%Z with [] => None | s => Some s end
  end.

(** [len(v) == iterations] *)
Definition has_length (v : pyval) (iterations : Z) : Prop :=
  ∃ n, py_len v = Ok n ∧ Z.of_nat n = iterations.

(** Whether the value stored under [key] is iterable. *)
Definition value_iterable (d : list (string * pyval)) (key : string) : bool :=
  match dict_get d key with
  | Ok v => is_iterable v
  | Raise _ => false
  end.

(** What the closing loops append to a field: the items of a sequence,
    or the single product of a non-iterable with [iterations]. *)
Definition list_extension (d : list (string * pyval)) (key : string)
  : result (list pyval) :=
  rbind (dict_get d key) py_iter.

Definition object_extension (d : list (string * pyval)) (iterations : Z)
    (key : string) : result (list pyval) :=
  rbind (dict_get d key) (λ v, rbind (py_mul v iterations) (λ x, Ok [x])).

(** Both loop bodies have one shape: look the field up, compute the
    items, append them. *)
Definition extend_with (ext : string → result (list pyval)) (key : string)
  : M unit :=
  _ ← lookup_field key;
  items ← lift (ext key);
  update_field key (λ l, l ++ items).

(** The samples that the capture window opened as the [k]-th one pulls. *)
Definition pulled_at (pull_samples : StreamInfo → Q → nat → list (list Q))
    (info : StreamInfo) (duration : Q) (k : nat) : list (list Q) :=
  if Qle_bool duration 0 then [] else pull_samples info duration k.

(** Capture followed by normalisation, on the pulled samples. *)
Definition window_of (pulled : list (list Q)) (sf d : Q) : result ndarray :=
  rbind (assemble pulled) (λ raw, _padtrim_sample raw sf d).

(** Every field of the dataset has [n] entries. *)
Definition all_fields_have_length (w : world) (n : nat) : Prop :=
  ∀ key l, samples (self w) !! key = Some l → length l = n.

(** A relation that a computation establishes between the world it
    starts in and the world it leaves, whatever its result. *)
Definition preserves {A : Type} (R : world → world → Prop) (m : M A) : Prop :=
  ∀ w w' r, m w = (w', r) → R w w'.

(** The recorder afterwards is the recorder before with items appended
    to its fields, every appended item satisfying [P] for the sampling
    frequency and the field it went to. *)
Definition extends_by (P : Q → string → pyval → Prop) (w w' : world) : Prop :=
  sampling_frequency (self w') = sampling_frequency (self w)
  ∧ ∀ key, ∃ ext,
      samples (self w') !! key = (λ l, l ++ ext) <$> samples (self w) !! key
      ∧ Forall (P (sampling_frequency (self w)) key) ext.

(** The events of the search that a session without a handle starts with. *)
Definition discovery_events (stream : option (list StreamInfo)) : list event :=
  match stream with
  | None => [ResolveByprop 4]
  | Some _ => []
  end.

(** The events one trial can emit. *)
Definition trial_event (rest_duration : Q) (ev : event) : Prop :=
  ev = Sleep rest_duration ∨ ev = PresentStimuli ∨ ev = EndStimuli.

(** ** A small rig for examples *)

Definition muse : StreamInfo := {| stream_name := "Muse"; channel_count := 2 |}.

Definition nothing_found : Z → list StreamInfo := λ _, [].
Definition muse_found : Z → list StreamInfo := λ _, [muse].

(** Three two-channel samples in every capture window. *)
Definition steady_pull : StreamInfo → Q → nat → list (list Q) :=
  λ _ _ k, replicate 3 [inject_Z (Z.of_nat k); 1%Q].

(** Unfolds the monad's operations in a goal. *)
Ltac run_monad :=
  unfold mbind, M_bind, mret, M_ret, emit, next_capture, lift, raise; cbn.

(** * Properties *)

(** ** Target length *)

Lemma py_int_floor (x : Q) : (0 <= x)%Q → py_int x = Qfloor x.
Proof.
  destruct x as [n d]. unfold py_int, Qfloor, Qle. simpl. intros Hn.
  apply Z.quot_div_nonneg; lia.
Qed.

Lemma product_nonneg (a b : Q) : (0 <= a)%Q → (0 <= b)%Q → (0 <= a * b)%Q.
Proof. apply Qmult_le_0_compat. Qed.

Lemma round_half_even_nonneg (n d : Z) :
  (0 ≤ n)%Z → (0 < d)%Z → (0 ≤ round_half_even n d)%Z.
Proof.
  intros Hn Hd. unfold round_half_even.
  pose proof (Z.div_pos n d Hn Hd) as Hfl.
  destruct (2 * (n mod d) ?= d)%Z; [destruct (Z.even _) | |]; lia.
Qed.

Lemma scaled_pos (n d e : Z) :
  (0 < n)%Z → (0 < d)%Z →
  (0 < fst (scaled n d e))%Z ∧ (0 < snd (scaled n d e))%Z.
Proof.
  intros Hn Hd. unfold scaled.
  destruct (Z.leb_spec 0 e); cbn [fst snd]; split; try done;
    apply Z.mul_pos_pos; try done; apply Z.pow_pos_nonneg; lia.
Qed.

Lemma dyadic_nonneg (m e : Z) : (0 ≤ m)%Z → (0 <= dyadic m e)%Q.
Proof.
  intros Hm. unfold dyadic. rewrite Qred_correct.
  destruct (0 <=? e)%Z; unfold Qle; cbn; [| lia].
  pose proof (Z.pow_nonneg 2 e). nia.
Qed.

(** Rounding keeps the sign: what is not negative rounds to a finite
    value that is not negative, or to the positive infinity. *)
Lemma round_positive_nonneg (n d : Z) :
  (0 < n)%Z → (0 < d)%Z →
  match round_positive n d with
  | Finite p => (0 <= p)%Q
  | Infinite s => s = false
  | NaN => False
  end.
Proof.
  intros Hn Hd. unfold round_positive.
  pose proof (scaled_pos n d (binade n d) Hn Hd) as [Ha Hb].
  destruct (scaled n d (binade n d)) as [a b]. cbn [fst snd] in *.
  destruct (_ && _); [done |].
  apply dyadic_nonneg, round_half_even_nonneg; lia.
Qed.

Lemma round64_nonneg (q : Q) :
  (0 <= q)%Q →
  match round64 q with
  | Finite p => (0 <= p)%Q
  | Infinite s => s = false
  | NaN => False
  end.
Proof.
  destruct q as [n d]. unfold round64, Qle. cbn. intros Hn.
  destruct n as [| n | n]; [done | | lia].
  by apply round_positive_nonneg.
Qed.

(** The float product of two positive numbers, when finite, is not
    negative. *)
Lemma float_product_nonneg (sf d p : Q) :
  (0 < sf)%Q → (0 < d)%Q → float_product sf d = Ok (Finite p) → (0 <= p)%Q.
Proof.
  intros Hsf Hd. unfold float_product, as_float.
  pose proof (round64_nonneg sf (Qlt_le_weak _ _ Hsf)) as Ha.
  pose proof (round64_nonneg d (Qlt_le_weak _ _ Hd)) as Hb.
  destruct (round64 sf) as [a | s |], (round64 d) as [b | t |]; try done;
    cbn [rbind double_mul].
  - intros [= Hp].
    pose proof (round64_nonneg (a * b) (product_nonneg a b Ha Hb)) as H.
    by rewrite Hp in H.
  - by destruct (Qnum a).
Qed.

Lemma target_length_finite (sf d p : Q) :
  float_product sf d = Ok (Finite p) → target_length sf d = Ok (py_int p).
Proof. unfold target_length. by intros ->. Qed.

Lemma target_length_nonneg (sf d : Q) (t : Z) :
  (0 < sf)%Q → (0 < d)%Q → target_length sf d = Ok t → (0 ≤ t)%Z.
Proof.
  intros Hsf Hd. unfold target_length.
  destruct (float_product sf d) as [[p | s |] | e] eqn:Hp; [| done..].
  cbn [rbind int_of_double]. intros [= <-].
  pose proof (float_product_nonneg _ _ _ Hsf Hd Hp) as Hnn.
  rewrite py_int_floor by done.
  change 0%Z with (Qfloor 0). by apply Qfloor_resp_le.
Qed.

Lemma target_length_positive (sf d p : Q) :
  (0 < sf)%Q → (0 < d)%Q → float_product sf d = Ok (Finite p) →
  target_length sf d = Ok (Qfloor p) ∧ (0 ≤ Qfloor p)%Z.
Proof.
  intros Hsf Hd Hp. pose proof (float_product_nonneg _ _ _ Hsf Hd Hp) as Hnn.
  rewrite (target_length_finite _ _ _ Hp), py_int_floor by done.
  split; [done |]. change 0%Z with (Qfloor 0). by apply Qfloor_resp_le.
Qed.

(** C6 (as amended). For a positive sampling frequency and a positive
    duration whose float product is finite, the target length of the
    normaliser is the floor of that product, the product being the
    double that Python computes and not the exact one. *)
Theorem target_length_is_floor (sampling_frequency duration p : Q) :
  (0 < sampling_frequency)%Q → (0 < duration)%Q →
  float_product sampling_frequency duration = Ok (Finite p) →
  target_length sampling_frequency duration = Ok (Qfloor p).
Proof.
  intros Hsf Hd Hp. by apply target_length_positive.
Qed.

Lemma target_length_is_floor_witness :
  ((0 < 250)%Q ∧ (0 < 1003 # 1000)%Q
   ∧ float_product 250 (1003 # 1000)
     = Ok (Finite (8822481301274623 # 35184372088832)))
  ∧ target_length 250 (1003 # 1000)
    = Ok (Qfloor (8822481301274623 # 35184372088832)).
Proof.
  split; [split; [reflexivity | split; [reflexivity | vm_compute; reflexivity]] |].
  apply (target_length_is_floor 250 (1003 # 1000)
           (8822481301274623 # 35184372088832));
    [reflexivity | reflexivity | vm_compute; reflexivity].
Defined.

(** Against C6 as stated: a positive frequency and a positive duration
    whose product, [1e308 * 10.5], is beyond the doubles.  The product is
    the infinity, [int] refuses it, and no target length is computed. *)
Lemma target_length_overflows :
  (0 < inject_Z (10 ^ 308))%Q ∧ (0 < 21 # 2)%Q
  ∧ float_product (inject_Z (10 ^ 308)) (21 # 2) = Ok (Infinite false)
  ∧ target_length (inject_Z (10 ^ 308)) (21 # 2) = Raise OverflowError
  ∧ ¬ ∃ t, target_length (inject_Z (10 ^ 308)) (21 # 2) = Ok t.
Proof.
  assert (target_length (inject_Z (10 ^ 308)) (21 # 2) = Raise OverflowError)
    as H by (vm_compute; reflexivity).
  split; [reflexivity |]. split; [reflexivity |].
  split; [vm_compute; reflexivity |]. split; [exact H |].
  intros [t Ht]. rewrite H in Ht. discriminate Ht.
Qed.

Example target_length_256_2 : target_length 256 2 = Ok 512%Z.
Proof. vm_compute. reflexivity. Qed.

Example target_length_250_1003 : target_length 250 (1003 # 1000) = Ok 250%Z.
Proof. vm_compute. reflexivity. Qed.

(** The product is rounded before it is truncated: 0.3, 0.7 and 0.29 are
    not doubles, the doubles nearest to them are a little smaller, and
    the rounded product is the whole number in two cases out of three. *)
Example target_length_rounded_product :
  target_length 250 (3 # 10) = Ok 75%Z
  ∧ target_length 10 (7 # 10) = Ok 7%Z
  ∧ target_length 100 (29 # 100) = Ok 28%Z.
Proof. repeat split; vm_compute; reflexivity. Qed.

(** The same products in Rocq's own specification of binary64
    multiplication. *)
Example float_product_agrees_with_SFmul :
  Ok (SF2double (SFmul 53 1024 (binary_normalize 53 1024 250 0 false)
                   (S754_finite false 5404319552844595 (-54))))
  = float_product 250 (3 # 10)
  ∧ Ok (SF2double (SFmul 53 1024 (binary_normalize 53 1024 10 0 false)
                     (S754_finite false 6305039478318694 (-53))))
    = float_product 10 (7 # 10)
  ∧ Ok (SF2double (SFmul 53 1024 (binary_normalize 53 1024 100 0 false)
                     (S754_finite false 5224175567749775 (-54))))
    = float_product 100 (29 # 100)
  ∧ Ok (SF2double (SFmul 53 1024 (binary_normalize 53 1024 250 0 false)
                     (S754_finite false 4517110426252607 (-52))))
    = float_product 250 (1003 # 1000)
  ∧ Ok (SF2double (SFmul 53 1024 (binary_normalize 53 1024 (10 ^ 308) 0 false)
                     (S754_finite false 5910974510923776 (-49))))
    = float_product (inject_Z (10 ^ 308)) (21 # 2).
Proof. repeat split; vm_compute; reflexivity. Qed.

(** Truncation and floor part ways below zero, which is why the sign
    matters above. *)
Example target_length_negative :
  target_length 250 (-1003 # 1000) = Ok (-250)%Z
  ∧ Qfloor (-8822481301274623 # 35184372088832) = (-251)%Z.
Proof. split; vm_compute; reflexivity. Qed.

(** ** Pad and trim *)

Lemma slice_stop_within (len : nat) (stop : Z) :
  (0 ≤ stop ≤ Z.of_nat len)%Z → slice_stop len stop = Z.to_nat stop.
Proof.
  intros H. unfold slice_stop.
  destruct (Z.ltb_spec stop 0); lia.
Qed.

Lemma getitem_rows (r c : nat) (rows : list (list Q)) (i j : nat) :
  getitem (Arr2 r c rows) i j = rows !! i ≫= λ row, row !! j.
Proof. reflexivity. Qed.

Lemma lookup_pad_right (row : list Q) (k j : nat) :
  j < length row + k →
  (row ++ replicate k 0%Q) !! j
  = if decide (j < length row) then row !! j else Some 0%Q.
Proof.
  intros Hj. case_decide as Hlt.
  - by apply lookup_app_l.
  - rewrite lookup_app_r by lia. apply lookup_replicate_2. lia.
Qed.

(** What [_padtrim_sample] does for a target length that is not negative. *)
Lemma padtrim_spec (C T : nat) (rows : list (list Q)) (sf d : Q) (L : nat) :
  wf_array (Arr2 C T rows) →
  target_length sf d = Ok (Z.of_nat L) →
  ∃ out,
    _padtrim_sample (Arr2 C T rows) sf d = Ok out
    ∧ shape out = [C; L]
    ∧ wf_array out
    ∧ ∀ i j, i < C → j < L →
        getitem out i j
        = if decide (j < T) then getitem (Arr2 C T rows) i j else Some 0%Q.
Proof.
  intros [Hlen Hrows] HL. unfold _padtrim_sample. cbn [shape]. rewrite HL.
  cbn [rbind].
  destruct (Z.ltb_spec (Z.of_nat T) (Z.of_nat L)) as [Hlt | Hge].
  - (* pad *)
    replace (Z.to_nat (Z.of_nat L - Z.of_nat T)) with (L - T) by lia.
    cbn [np_pad replicate app]. rewrite app_nil_r.
    eexists. split; [reflexivity |].
    replace (0 + C + 0) with C by lia. replace (0 + T + (L - T)) with L by lia.
    split; [reflexivity |]. split.
    + split; [by rewrite length_map |].
      apply Forall_forall. intros row' Hin.
      apply list_elem_of_In, in_map_iff in Hin as (row & <- & Hin).
      rewrite length_app, length_replicate.
      apply list_elem_of_In in Hin.
      rewrite Forall_forall in Hrows. rewrite (Hrows row Hin). lia.
    + intros i j Hi Hj. rewrite !getitem_rows.
      change (map ?f rows) with (f <$> rows). rewrite list_lookup_fmap.
      destruct (lookup_lt_is_Some_2 rows i) as [row Hrow]; [lia |].
      rewrite Hrow. cbn.
      assert (length row = T) as Hrl.
      { rewrite Forall_forall in Hrows. apply Hrows.
        by eapply list_elem_of_lookup_2. }
      rewrite lookup_pad_right by lia. rewrite Hrl. done.
  - (* trim *)
    cbn [slice_cols]. rewrite slice_stop_within by lia. rewrite Nat2Z.id.
    eexists. split; [reflexivity |]. split; [reflexivity |]. split.
    + split; [by rewrite length_map |].
      apply Forall_forall. intros row' Hin.
      apply list_elem_of_In, in_map_iff in Hin as (row & <- & Hin).
      apply list_elem_of_In in Hin.
      rewrite Forall_forall in Hrows. rewrite length_take, (Hrows row Hin). lia.
    + intros i j Hi Hj. rewrite !getitem_rows.
      change (map ?f rows) with (f <$> rows). rewrite list_lookup_fmap.
      destruct (lookup_lt_is_Some_2 rows i) as [row Hrow]; [lia |].
      rewrite Hrow. cbn.
      rewrite lookup_take_lt by lia. case_decide; [done | lia].
Qed.


(** C5. On a two-dimensional buffer of shape [C, T] the normaliser returns
    a buffer of shape [C, L], where [L] is the floor of the float product
    of frequency and duration: column [j] of every channel is the input's
    column [j] while [j < T] and zero from [T] on (so a longer input is
    cut to its first [L] columns), and no channel is added or dropped. *)
Theorem padtrim_shape_and_content (C T : nat) (rows : list (list Q))
    (sampling_frequency duration p : Q) :
  wf_array (Arr2 C T rows) →
  (0 < sampling_frequency)%Q → (0 < duration)%Q →
  float_product sampling_frequency duration = Ok (Finite p) →
  ∃ (out : ndarray) (L : nat),
    _padtrim_sample (Arr2 C T rows) sampling_frequency duration = Ok out
    ∧ Z.of_nat L = Qfloor p
    ∧ shape out = [C; L]
    ∧ wf_array out
    ∧ ∀ i j, i < C → j < L →
        getitem out i j
        = if decide (j < T) then getitem (Arr2 C T rows) i j else Some 0%Q.
Proof.
  intros Hwf Hsf Hd Hp.
  destruct (target_length_positive _ _ _ Hsf Hd Hp) as [Htl Hnn].
  destruct (padtrim_spec C T rows sampling_frequency duration
              (Z.to_nat (Qfloor p)) Hwf)
    as (out & Hout & Hshape & Hwfo & Hget); [rewrite Htl; f_equal; lia |].
  exists out, (Z.to_nat (Qfloor p)).
  split; [done |]. split; [lia |]. done.
Qed.

Lemma padtrim_shape_and_content_witness :
  (wf_array (Arr2 2 3 [[1; 2; 3]; [4; 5; 6]]%Q)
   ∧ (0 < 10)%Q ∧ (0 < 7 # 10)%Q
   ∧ float_product 10 (7 # 10) = Ok (Finite 7))
  ∧ ∃ (out : ndarray) (L : nat),
      _padtrim_sample (Arr2 2 3 [[1; 2; 3]; [4; 5; 6]]%Q) 10 (7 # 10) = Ok out
      ∧ Z.of_nat L = Qfloor 7
      ∧ shape out = [2; L]
      ∧ wf_array out
      ∧ ∀ i j, i < 2 → j < L →
          getitem out i j
          = if decide (j < 3)
            then getitem (Arr2 2 3 [[1; 2; 3]; [4; 5; 6]]%Q) i j
            else Some 0%Q.
Proof.
  assert (wf_array (Arr2 2 3 [[1; 2; 3]; [4; 5; 6]]%Q)) as Hwf.
  { split; [reflexivity | repeat constructor]. }
  assert (float_product 10 (7 # 10) = Ok (Finite 7)) as Hp
    by (vm_compute; reflexivity).
  split; [split; [exact Hwf | split; [reflexivity | split; [reflexivity | exact Hp]]] |].
  exact (padtrim_shape_and_content 2 3 [[1; 2; 3]; [4; 5; 6]]%Q 10 (7 # 10) 7
           Hwf eq_refl eq_refl Hp).
Defined.

(** Ten samples a second for 0.7 seconds are seven columns: the product
    is rounded to 7 before it is truncated. *)
Example padtrim_seven_columns :
  _padtrim_sample (Arr2 2 3 [[1; 2; 3]; [4; 5; 6]]%Q) 10 (7 # 10)
  = Ok (Arr2 2 7 [[1; 2; 3; 0; 0; 0; 0]; [4; 5; 6; 0; 0; 0; 0]]%Q).
Proof. vm_compute. reflexivity. Qed.

(** The three windows of the scenario in miniature: a short capture is
    padded, an exact one is kept, a long one is cut. *)
Example padtrim_short :
  _padtrim_sample (Arr2 2 3 [[1; 2; 3]; [4; 5; 6]]%Q) 2 2
  = Ok (Arr2 2 4 [[1; 2; 3; 0]; [4; 5; 6; 0]]%Q).
Proof. vm_compute. reflexivity. Qed.

Example padtrim_exact :
  _padtrim_sample (Arr2 2 4 [[1; 2; 3; 4]; [5; 6; 7; 8]]%Q) 2 2
  = Ok (Arr2 2 4 [[1; 2; 3; 4]; [5; 6; 7; 8]]%Q).
Proof. vm_compute. reflexivity. Qed.

Example padtrim_long :
  _padtrim_sample (Arr2 2 5 [[1; 2; 3; 4; 5]; [6; 7; 8; 9; 10]]%Q) 2 2
  = Ok (Arr2 2 4 [[1; 2; 3; 4]; [6; 7; 8; 9]]%Q).
Proof. vm_compute. reflexivity. Qed.

(** A buffer that already has the target length comes back as it is. *)
Lemma padtrim_noop (C T : nat) (rows : list (list Q)) (sf d : Q) :
  wf_array (Arr2 C T rows) →
  target_length sf d = Ok (Z.of_nat T) →
  _padtrim_sample (Arr2 C T rows) sf d = Ok (Arr2 C T rows).
Proof.
  intros [Hlen Hrows] HT. unfold _padtrim_sample. cbn [shape]. rewrite HT.
  cbn [rbind]. rewrite Z.ltb_irrefl. cbn [slice_cols].
  rewrite slice_stop_within by lia. rewrite Nat2Z.id.
  do 2 f_equal. clear Hlen.
  induction Hrows as [| row rows' Hrow _ IH]; [done |].
  cbn [map]. rewrite IH. f_equal. apply firstn_all2. lia.
Qed.

(** C7. A buffer whose time axis already has the target length is
    returned unchanged, and normalising twice is the same as normalising
    once. *)
Theorem padtrim_idempotent (x : ndarray) (sampling_frequency duration : Q) :
  wf_array x →
  (0 < sampling_frequency)%Q → (0 < duration)%Q →
  (∀ C T, shape x = [C; T] →
     target_length sampling_frequency duration = Ok (Z.of_nat T) →
     _padtrim_sample x sampling_frequency duration = Ok x)
  ∧ rbind (_padtrim_sample x sampling_frequency duration)
      (λ y, _padtrim_sample y sampling_frequency duration)
    = _padtrim_sample x sampling_frequency duration.
Proof.
  intros Hwf Hsf Hd. split.
  - intros C T Hshape HT. destruct x as [v | C' T' rows]; [done |].
    cbn in Hshape. injection Hshape as -> ->. by apply padtrim_noop.
  - destruct x as [v | C T rows]; [done |].
    destruct (target_length sampling_frequency duration) as [t | e] eqn:Ht.
    + pose proof (target_length_nonneg _ _ _ Hsf Hd Ht) as Hnn.
      destruct (padtrim_spec C T rows sampling_frequency duration
                  (Z.to_nat t) Hwf)
        as (out & Hout & Hshape & Hwfo & _); [rewrite Ht; f_equal; lia |].
      rewrite Hout. cbn [rbind].
      destruct out as [v | C' T' rows']; [done |].
      cbn in Hshape. injection Hshape as -> ->.
      apply padtrim_noop; [done | rewrite Ht; f_equal; lia].
    + unfold _padtrim_sample. cbn [shape]. by rewrite Ht.
Qed.

Lemma padtrim_idempotent_witness :
  (wf_array (Arr2 1 3 [[7; 8; 9]]%Q) ∧ (0 < 2)%Q ∧ (0 < 1)%Q)
  ∧ (∀ C T, shape (Arr2 1 3 [[7; 8; 9]]%Q) = [C; T] →
       target_length 2 1 = Ok (Z.of_nat T) →
       _padtrim_sample (Arr2 1 3 [[7; 8; 9]]%Q) 2 1 = Ok (Arr2 1 3 [[7; 8; 9]]%Q))
  ∧ rbind (_padtrim_sample (Arr2 1 3 [[7; 8; 9]]%Q) 2 1)
      (λ y, _padtrim_sample y 2 1)
    = _padtrim_sample (Arr2 1 3 [[7; 8; 9]]%Q) 2 1.
Proof.
  assert (wf_array (Arr2 1 3 [[7; 8; 9]]%Q)) as Hwf.
  { split; [reflexivity | repeat constructor]. }
  split; [split; [exact Hwf | split; reflexivity] |].
  apply (padtrim_idempotent (Arr2 1 3 [[7; 8; 9]]%Q) 2 1 Hwf); reflexivity.
Defined.

(** With a negative duration the slice [:target_length] counts from the
    end, and each pass drops more columns. *)
Example padtrim_negative_duration :
  _padtrim_sample (Arr2 1 3 [[7; 8; 9]]%Q) 1 (-1) = Ok (Arr2 1 2 [[7; 8]]%Q)
  ∧ _padtrim_sample (Arr2 1 2 [[7; 8]]%Q) 1 (-1) = Ok (Arr2 1 1 [[7]]%Q).
Proof. split; vm_compute; reflexivity. Qed.

(** ** Capture *)

Lemma np_array_ok (pulled : list (list Q)) :
  capture_ok pulled = true →
  ∃ c, np_array pulled = Ok (Arr2 (length pulled) c pulled)
       ∧ Forall (λ s, length s = c) pulled.
Proof.
  destruct pulled as [| s rest]; [done |]. cbn [capture_ok np_array].
  intros Hall. rewrite Hall. exists (length s). split; [done |].
  constructor; [done |].
  apply Forall_forall. intros r Hr.
  rewrite forallb_forall in Hall. apply Nat.eqb_eq, Hall.
  by apply list_elem_of_In.
Qed.

(** A capture that pulled at least one sample, all with the same number
    of channels, is a well-formed two-dimensional buffer whose time axis
    counts the samples. *)
Lemma assemble_ok (pulled : list (list Q)) :
  capture_ok pulled = true →
  ∃ C rows, assemble pulled = Ok (Arr2 C (length pulled) rows)
            ∧ wf_array (Arr2 C (length pulled) rows).
Proof.
  intros Hok. destruct (np_array_ok pulled Hok) as (c & Harr & Hall).
  unfold assemble. rewrite Harr. cbn [rbind transpose ascontiguousarray].
  eexists _, _. split; [reflexivity |]. split.
  - by rewrite length_map, length_seq.
  - apply Forall_forall. intros row Hin.
    apply list_elem_of_In, in_map_iff in Hin as (j & <- & _).
    by rewrite length_map.
Qed.


(** Transposition turns the pulled samples, one per time step, into one
    row per channel. *)
Example assemble_three_samples :
  assemble [[1; 10]; [2; 20]; [3; 30]]%Q = Ok (Arr2 2 3 [[1; 2; 3]; [10; 20; 30]]%Q).
Proof. reflexivity. Qed.

(** C9. A capture window in which nothing was pulled yields the
    one-dimensional array of shape (0,), and the normaliser, which unpacks
    a two-element shape, raises on it: with [duration = 0] the trial ends
    in [ValueError] after both stimulus hooks have run. *)
Theorem empty_capture_is_refused
    (pull_samples : StreamInfo → Q → nat → list (list Q))
    (info : StreamInfo) (w : world) :
  assemble [] = Ok (Arr1 [])
  ∧ (∀ sf d, window_of [] sf d = Raise ValueError)
  ∧ record_one_iteration pull_samples [info] 0 2 256 w
    = ({| self := self w;
          events := ((events w ++ [Sleep 2]) ++ [PresentStimuli]) ++ [EndStimuli];
          captures := S (captures w) |},
       Raise ValueError).
Proof. split; [done |]. split; [done |]. reflexivity. Qed.

(** ** Metadata validation *)

Lemma dict_get_elem (d : list (string * pyval)) (key : string) :
  key ∈ dict_keys d → ∃ v, dict_get d key = Ok v.
Proof.
  induction d as [| [k v] d IH]; cbn.
  - intros H. by apply elem_of_nil in H.
  - intros H. case_decide as Hk; [eauto |].
    apply elem_of_cons in H as [-> | H]; [done | by apply IH].
Qed.

Lemma dict_get_Ok_elem (d : list (string * pyval)) (key : string) (v : pyval) :
  dict_get d key = Ok v → key ∈ dict_keys d.
Proof.
  induction d as [| [k v'] d IH]; cbn; [done |].
  case_decide as Hk.
  - intros _. subst. apply elem_of_cons. by left.
  - intros H. apply elem_of_cons. right. by apply IH.
Qed.

Lemma length_list_ascii (s : string) :
  length (String.list_ascii_of_string s) = String.length s.
Proof. induction s as [| c s IH]; cbn; [done | by rewrite IH]. Qed.

(** Iterating a value yields as many items as its [len]. *)
Lemma py_iter_length (v : pyval) :
  is_iterable v = true →
  ∃ items, py_iter v = Ok items ∧ py_len v = Ok (length items).
Proof.
  destruct v as [| | | s | l | [v | r c rows]]; try done; intros _; cbn;
    eexists; (split; [reflexivity |]);
    by rewrite ?length_map, ?length_list_ascii.
Qed.

Lemma check_variables_spec (keys : list string) (md : list (string * pyval))
    (it : Z) (lv ov : list string) :
  (∀ key, key ∈ keys → key ∈ dict_keys md) →
  match check_variables keys md it lv ov with
  | Ok (lv', ov') =>
      lv' = lv ++ filter (λ k, value_iterable md k = true) keys
      ∧ ov' = ov ++ filter (λ k, value_iterable md k = false) keys
      ∧ ∀ key v, key ∈ keys → dict_get md key = Ok v →
          is_iterable v = true → has_length v it
  | Raise e =>
      ∃ key v n, e = AssertionError key ∧ key ∈ keys
        ∧ dict_get md key = Ok v ∧ is_iterable v = true
        ∧ py_len v = Ok n ∧ Z.of_nat n ≠ it
  end.
Proof.
  revert lv ov. induction keys as [| key keys IH]; intros lv ov Hsub.
  - cbn. rewrite !app_nil_r. repeat split. intros key v H. by apply elem_of_nil in H.
  - destruct (dict_get_elem md key) as [v Hv]; [apply Hsub; left |].
    assert (∀ k, k ∈ keys → k ∈ dict_keys md) as Hsub'.
    { intros k Hk. apply Hsub. by right. }
    cbn [check_variables]. rewrite Hv. cbn [rbind].
    destruct (is_iterable v) eqn:Hit.
    + destruct (py_iter_length v Hit) as (items & _ & Hlen).
      rewrite Hlen. cbn [rbind].
      destruct (Z.eqb_spec (Z.of_nat (length items)) it) as [Heq | Hne].
      * specialize (IH (lv ++ [key]) ov Hsub').
        destruct (check_variables keys md it (lv ++ [key]) ov) as [[lv' ov'] | e].
        -- destruct IH as (-> & -> & Hall).
           rewrite filter_cons_True by (unfold value_iterable; by rewrite Hv).
           rewrite filter_cons_False
             by (unfold value_iterable; rewrite Hv, Hit; done).
           split; [by rewrite <- app_assoc |]. split; [done |].
           intros k v' Hk Hv' Hit'.
           apply elem_of_cons in Hk as [-> | Hk]; [| by eapply Hall].
           rewrite Hv in Hv'. injection Hv' as <-. by exists (length items).
        -- destruct IH as (k & v' & n & -> & Hk & H).
           exists k, v', n. split; [done |]. split; [by right | done].
      * exists key, v, (length items). repeat split; try done. by left.
    + specialize (IH lv (ov ++ [key]) Hsub').
      destruct (check_variables keys md it lv (ov ++ [key])) as [[lv' ov'] | e].
      * destruct IH as (-> & -> & Hall).
        rewrite filter_cons_False
          by (unfold value_iterable; rewrite Hv, Hit; done).
        rewrite filter_cons_True by (unfold value_iterable; by rewrite Hv).
        split; [done |]. split; [by rewrite <- app_assoc |].
        intros k v' Hk Hv' Hit'.
        apply elem_of_cons in Hk as [-> | Hk]; [| by eapply Hall].
        rewrite Hv in Hv'. injection Hv' as <-. congruence.
      * destruct IH as (k & v' & n & -> & Hk & H).
        exists k, v', n. split; [done |]. split; [by right | done].
Qed.

(** Validation fails only on an iterable value whose length is not
    [iterations]; when it succeeds it has sorted the keys by iterability
    and every iterable value has that length. *)
Lemma validate_spec (md : list (string * pyval)) (it : Z) :
  match validate md it with
  | Ok (lv, ov) =>
      lv = filter (λ k, value_iterable md k = true) (dict_keys md)
      ∧ ov = filter (λ k, value_iterable md k = false) (dict_keys md)
      ∧ ∀ key v, dict_get md key = Ok v → is_iterable v = true → has_length v it
  | Raise e =>
      ∃ key v n, e = AssertionError key
        ∧ dict_get md key = Ok v ∧ is_iterable v = true
        ∧ py_len v = Ok n ∧ Z.of_nat n ≠ it
  end.
Proof.
  unfold validate. destruct md as [| b md'].
  - cbn. repeat split. intros key v H. done.
  - change (0 <? length (b :: md')) with true. cbn match.
    pose proof (check_variables_spec (dict_keys (b :: md')) (b :: md') it [] [])
      as H.
    destruct (check_variables _ _ _ _ _) as [[lv ov] | e].
    + destruct H as (-> & -> & Hall); [done |]. repeat split.
      intros key v Hv Hit. eapply Hall; [| done..]. by eapply dict_get_Ok_elem.
    + destruct H as (key & v & n & H); [done |]. exists key, v, n. tauto.
Qed.

(** The validation as the code performs it: it succeeds if and only if
    every iterable value has length [iterations]; on success the keys are
    sorted by iterability; the only failure is the assertion on an
    iterable value of another length; [None] and numbers are not
    iterable. *)
Lemma validation_checks_iterables_only (md : list (string * pyval))
    (iterations : Z) :
  ((∃ lv ov, validate md iterations = Ok (lv, ov))
   ↔ (∀ key v, dict_get md key = Ok v → is_iterable v = true →
        has_length v iterations))
  ∧ (∀ lv ov, validate md iterations = Ok (lv, ov) →
       lv = filter (λ k, value_iterable md k = true) (dict_keys md)
       ∧ ov = filter (λ k, value_iterable md k = false) (dict_keys md))
  ∧ (∀ e, validate md iterations = Raise e →
       ∃ key v, e = AssertionError key ∧ dict_get md key = Ok v
                ∧ is_iterable v = true ∧ ¬ has_length v iterations)
  ∧ is_iterable PyNone = false
  ∧ (∀ n, is_iterable (PyInt n) = false)
  ∧ (∀ x, is_iterable (PyFloat x) = false).
Proof.
  pose proof (validate_spec md iterations) as H.
  split; [| split; [| split; [| done]]].
  - destruct (validate md iterations) as [[lv ov] | e].
    + split; [intros _; apply H | eauto].
    + destruct H as (key & v & n & _ & Hv & Hit & Hn & Hne).
      split; [intros (lv & ov & [=]) |].
      intros Hall. destruct (Hall key v Hv Hit) as (n' & Hn' & Heq).
      congruence.
  - intros lv ov Heq. rewrite Heq in H. tauto.
  - intros e Heq. rewrite Heq in H.
    destruct H as (key & v & n & -> & Hv & Hit & Hn & Hne).
    exists key, v. repeat split; try done.
    intros (n' & Hn' & Heq'). congruence.
Qed.

(** ** Running the monad *)

Lemma bind_run {A B : Type} (m : M A) (k : A → M B) (w : world) :
  (m ≫= k) w
  = match m w with
    | (w', Ok a) => k a w'
    | (w', Raise e) => (w', Raise e)
    end.
Proof. reflexivity. Qed.

Lemma for_each_ext {A : Type} (l : list A) (f g : A → M unit) (w : world) :
  (∀ x w', f x w' = g x w') → for_each l f w = for_each l g w.
Proof.
  intros Hfg. revert w. induction l as [| x l IH]; intros w; [done |].
  cbn [for_each]. rewrite !bind_run, Hfg.
  destruct (g x w) as [w' [[] | e]]; [apply IH | done].
Qed.

Lemma fmap_app_nil (o : option (list pyval)) : (λ l, l ++ []) <$> o = o.
Proof. destruct o; cbn; by rewrite ?app_nil_r. Qed.

Lemma fmap_app_app (o : option (list pyval)) (xs ys : list pyval) :
  (λ l, l ++ ys) <$> ((λ l, l ++ xs) <$> o) = (λ l, l ++ (xs ++ ys)) <$> o.
Proof. destruct o; cbn; by rewrite ?app_assoc. Qed.

(** ** One trial *)

(** A trial touches the outside world only: the recorder is as before. *)
Lemma record_one_iteration_self pull_samples stream d rest sf w w' res :
  record_one_iteration pull_samples stream d rest sf w = (w', res) →
  self w' = self w.
Proof.
  unfold record_one_iteration, sleep, _record_eeg_sample, present_stimuli,
    end_stimuli.
  run_monad.
  destruct (Qle_bool 0 rest); cbn; [| by intros [= <- _]].
  destruct (stream !! 0) as [info |]; cbn; [| by intros [= <- _]].
  destruct (assemble _) as [raw | e]; cbn; [| by intros [= <- _]].
  destruct (_padtrim_sample _ _ _); by intros [= <- _].
Qed.

Lemma record_one_iteration_ok pull_samples stream info d rest sf w out :
  stream !! 0 = Some info →
  Qle_bool 0 rest = true →
  window_of (pulled_at pull_samples info d (captures w)) sf d = Ok out →
  record_one_iteration pull_samples stream d rest sf w
  = ({| self := self w;
        events := events w ++ [Sleep rest; PresentStimuli; EndStimuli];
        captures := S (captures w) |},
     Ok out).
Proof.
  intros Hs Hrest Hwin.
  unfold record_one_iteration, sleep, _record_eeg_sample, present_stimuli,
    end_stimuli.
  unfold window_of, pulled_at in Hwin.
  run_monad. rewrite Hrest. cbn. rewrite Hs. cbn.
  destruct (assemble _) as [raw | e]; cbn in *; [| done].
  rewrite Hwin. by rewrite <- !app_assoc.
Qed.

(** A trial changes the dataset at ["recordings"] only, by appending
    its window when it succeeds and nothing when it fails. *)
Lemma record_trial_effect pull_samples stream d rest i w w' res :
  record_trial pull_samples stream d rest i w = (w', res) →
  ∃ ws, (res = Ok tt → length ws = 1)
    ∧ ∀ key, samples (self w') !! key
             = if decide (key = "recordings")
               then (λ l, l ++ ws) <$> samples (self w) !! key
               else samples (self w) !! key.
Proof.
  unfold record_trial, get_sampling_frequency. rewrite !bind_run.
  destruct (record_one_iteration _ _ _ _ _ w) as [w1 [sample | e]] eqn:Hone;
    apply record_one_iteration_self in Hone.
  - unfold update_field. rewrite Hone.
    destruct (samples (self w) !! "recordings") as [l |] eqn:Hl.
    + intros [= <- <-]. exists [PyArray sample]. split; [done |].
      intros key. cbn. rewrite lookup_insert.
      repeat case_decide; subst; try done. by rewrite Hl.
    + intros [= <- <-]. exists []. split; [done |].
      intros key. rewrite Hone, fmap_app_nil. by case_decide.
  - intros [= <- <-]. exists []. split; [done |].
    intros key. rewrite Hone, fmap_app_nil. by case_decide.
Qed.

Lemma trials_effect pull_samples stream d rest (l : list nat) w w' res :
  for_each l (record_trial pull_samples stream d rest) w = (w', res) →
  ∃ ws, (res = Ok tt → length ws = length l)
    ∧ ∀ key, samples (self w') !! key
             = if decide (key = "recordings")
               then (λ l, l ++ ws) <$> samples (self w) !! key
               else samples (self w) !! key.
Proof.
  revert w. induction l as [| i l IH]; intros w.
  - intros [= <- <-]. exists []. split; [done |].
    intros key. rewrite fmap_app_nil. by case_decide.
  - cbn [for_each]. rewrite bind_run.
    destruct (record_trial _ _ _ _ i w) as [w1 [[] | e]] eqn:Hone;
      apply record_trial_effect in Hone as (ws1 & Hlen1 & Hlook1).
    + intros Hrest. apply IH in Hrest as (ws2 & Hlen2 & Hlook2).
      exists (ws1 ++ ws2). split.
      * intros Hres. rewrite length_app, Hlen1, Hlen2; done.
      * intros key. rewrite Hlook2, Hlook1.
        case_decide; [apply fmap_app_app | done].
    + intros [= <- <-]. exists ws1. split; [done | exact Hlook1].
Qed.


Lemma bind_ok_inv {A B : Type} (m : M A) (k : A → M B) (w w' : world) (b : B) :
  (m ≫= k) w = (w', Ok b) →
  ∃ a w1, m w = (w1, Ok a) ∧ k a w1 = (w', Ok b).
Proof.
  rewrite bind_run. destruct (m w) as [w1 [a | e]]; [eauto | done].
Qed.

(** ** The closing loops *)

Lemma extend_with_run (ext : string → result (list pyval)) (key : string)
    (w : world) :
  extend_with ext key w
  = match samples (self w) !! key with
    | None => (w, Raise (KeyError key))
    | Some l =>
        match ext key with
        | Ok items =>
            (set_samples w (<[key := l ++ items]> (samples (self w))), Ok tt)
        | Raise e => (w, Raise e)
        end
    end.
Proof.
  unfold extend_with, lookup_field, update_field. run_monad.
  destruct (samples (self w) !! key) as [l |] eqn:Hl; [| done].
  destruct (ext key); [| done]. by rewrite Hl.
Qed.

Lemma extend_list_variable_eq (md : list (string * pyval)) (key : string)
    (w : world) :
  extend_list_variable md key w = extend_with (list_extension md) key w.
Proof.
  rewrite extend_with_run.
  unfold extend_list_variable, list_extension, lookup_field, update_field.
  run_monad.
  destruct (samples (self w) !! key) as [l |] eqn:Hl; [| done].
  destruct (dict_get md key) as [v |]; cbn; [| done].
  destruct (py_iter v); cbn; [| done]. by rewrite Hl.
Qed.

Lemma extend_object_variable_eq (md : list (string * pyval)) (it : Z)
    (key : string) (w : world) :
  extend_object_variable md it key w
  = extend_with (object_extension md it) key w.
Proof.
  rewrite extend_with_run.
  unfold extend_object_variable, object_extension, lookup_field, update_field.
  run_monad.
  destruct (samples (self w) !! key) as [l |] eqn:Hl; [| done].
  destruct (dict_get md key) as [v |]; cbn; [| done].
  destruct (py_mul v it); cbn; [| done]. by rewrite Hl.
Qed.

(** A closing loop leaves the outside world alone, touches no field
    beyond the keys it walks, and neither creates nor removes a field. *)
Lemma extend_loop_frame (ext : string → result (list pyval)) (l : list string)
    (w w' : world) (res : result unit) :
  for_each l (extend_with ext) w = (w', res) →
  events w' = events w
  ∧ captures w' = captures w
  ∧ (∀ key, key ∉ l → samples (self w') !! key = samples (self w) !! key)
  ∧ (∀ key, samples (self w') !! key = None ↔ samples (self w) !! key = None).
Proof.
  revert w. induction l as [| k l IH]; intros w.
  - by intros [= <- <-].
  - cbn [for_each]. rewrite bind_run, extend_with_run.
    destruct (samples (self w) !! k) as [old |] eqn:Hold;
      [| by intros [= <- <-]].
    destruct (ext k) as [items | e]; [| by intros [= <- <-]].
    intros Hrest. apply IH in Hrest as (Hev & Hcap & Hframe & Hdom).
    split; [done |]. split; [done |]. split.
    + intros key Hkey. apply not_elem_of_cons in Hkey as [Hne Hkey].
      rewrite Hframe by done. cbn. by rewrite lookup_insert_ne.
    + intros key. rewrite Hdom. cbn.
      destruct (decide (k = key)) as [-> | Hne].
      * rewrite lookup_insert_eq, Hold. done.
      * by rewrite lookup_insert_ne.
Qed.

(** When a closing loop over distinct keys completes, each key's field
    has grown by that key's items. *)
Lemma extend_loop_ok (ext : string → result (list pyval)) (l : list string)
    (w w' : world) :
  NoDup l →
  for_each l (extend_with ext) w = (w', Ok tt) →
  ∀ key, key ∈ l →
    ∃ old items, samples (self w) !! key = Some old
      ∧ ext key = Ok items
      ∧ samples (self w') !! key = Some (old ++ items).
Proof.
  intros Hnd. revert w. induction Hnd as [| k l Hk Hnd IH]; intros w Hrun key Hkey.
  - by apply elem_of_nil in Hkey.
  - cbn [for_each] in Hrun. rewrite bind_run, extend_with_run in Hrun.
    destruct (samples (self w) !! k) as [old |] eqn:Hold; [| done].
    destruct (ext k) as [items | e] eqn:Hext; [| done].
    apply elem_of_cons in Hkey as [-> | Hkey].
    + apply extend_loop_frame in Hrun as (_ & _ & Hframe & _).
      exists old, items. repeat split; try done.
      rewrite Hframe by done. cbn. by rewrite lookup_insert_eq.
    + destruct (IH _ Hrun key Hkey) as (old' & items' & Hold' & Hext' & Hnew).
      exists old', items'. repeat split; try done.
      cbn in Hold'. rewrite lookup_insert_ne in Hold'; [done |].
      intros ->. contradiction.
Qed.


(** ** The session *)

Lemma hook_calls_app (w : world) (evs : list event) :
  hook_calls {| self := self w; events := events w ++ evs; captures := captures w |}
  = hook_calls w ++ filter (λ ev, is_hook ev = true) evs.
Proof. unfold hook_calls. cbn. apply filter_app. Qed.

(** A session that has to search for its stream, and finds one, goes on
    exactly as a session that was handed that stream. *)
Lemma record_loop_bound resolve_byprop pull_samples stream s it d rest md w :
  bound_stream resolve_byprop stream = Some s →
  ∃ w0, self w0 = self w ∧ captures w0 = captures w
    ∧ hook_calls w0 = hook_calls w
    ∧ record_loop resolve_byprop pull_samples stream it d rest md w
      = record_loop resolve_byprop pull_samples (Some s) it d rest md w0.
Proof.
  destruct stream as [s' |]; cbn.
  - intros [= ->]. by exists w.
  - intros Hs.
    exists {| self := self w; events := events w ++ [ResolveByprop 4];
              captures := captures w |}.
    split; [done |]. split; [done |].
    split; [by rewrite hook_calls_app, app_nil_r |].
    unfold record_loop, _initiate_stream. rewrite !bind_run. cbn.
    destruct (resolve_byprop 4%Z) as [| i l]; [done |].
    by injection Hs as <-.
Qed.

(** With a stream to read from, a rest that is not negative and captures
    that all yield a window, the trial loop runs to its end. *)
Lemma trials_run pull_samples stream info d rest (n start : nat) (w : world) :
  stream !! 0 = Some info →
  Qle_bool 0 rest = true →
  (∀ k, captures w ≤ k < captures w + n →
     ∃ out, window_of (pulled_at pull_samples info d k)
              (sampling_frequency (self w)) d = Ok out) →
  is_Some (samples (self w) !! "recordings") →
  ∃ w', for_each (seq start n) (record_trial pull_samples stream d rest) w
        = (w', Ok tt)
    ∧ captures w' = captures w + n
    ∧ events w'
      = events w ++ mjoin (replicate n [Sleep rest; PresentStimuli; EndStimuli]).
Proof.
  intros Hs Hrest. revert start w.
  induction n as [| n IH]; intros start w Hwin [l Hl].
  - exists w. cbn. split; [done |]. split; [lia | by rewrite app_nil_r].
  - destruct (Hwin (captures w)) as [out Hout]; [lia |].
    cbn [seq for_each]. rewrite bind_run.
    unfold record_trial at 1, get_sampling_frequency. rewrite !bind_run.
    rewrite (record_one_iteration_ok _ _ _ _ _ _ _ _ Hs Hrest Hout).
    unfold update_field at 1. cbn [self]. rewrite Hl.
    match goal with |- context [for_each _ _ ?w1] => set (w2 := w1) end.
    destruct (IH (S start) w2) as (w' & Hrun & Hcap & Hev).
    { intros k Hk. subst w2. cbn in *. apply Hwin. lia. }
    { subst w2. cbn. rewrite lookup_insert_eq. eauto. }
    exists w'. split; [done |]. split.
    + rewrite Hcap. subst w2. cbn. lia.
    + rewrite Hev. subst w2. cbn. by rewrite <- app_assoc.
Qed.

(** The outcome of a search that finds nothing. *)
Lemma record_loop_absent resolve_byprop pull_samples it d rest md (w : world) :
  resolve_byprop 4%Z = [] →
  record_loop resolve_byprop pull_samples None it d rest md w
  = ({| self := self w;
        events := events w ++ [ResolveByprop 4; Print "No EEG stream was found."];
        captures := captures w |}, Ok tt).
Proof.
  intros Hnone. unfold record_loop, _initiate_stream. rewrite !bind_run. cbn.
  rewrite Hnone. run_monad. by rewrite <- app_assoc.
Qed.

(** With a stream in hand the session is the validation followed by the
    opening hook, the trials, the closing hook and the two closing loops. *)
Lemma record_loop_some resolve_byprop pull_samples s it d rest md (w : world) :
  record_loop resolve_byprop pull_samples (Some s) it d rest md w
  = match validate md it with
    | Raise e => (w, Raise e)
    | Ok (lv, ov) =>
        (_ ← signal_start_recording;
         _ ← for_range it (record_trial pull_samples s d rest);
         _ ← signal_end_recording;
         _ ← for_each lv (extend_with (list_extension md));
         for_each ov (extend_with (object_extension md it))) w
    end.
Proof.
  unfold record_loop. rewrite bind_run. cbn [mret M_ret]. rewrite bind_run.
  unfold lift at 1. destruct (validate md it) as [[lv ov] | e]; [| done].
  rewrite !bind_run.
  destruct (signal_start_recording w) as [w1 [[] | e]]; [| done].
  rewrite !bind_run.
  destruct (for_range it _ w1) as [w2 [[] | e]]; [| done].
  rewrite !bind_run.
  destruct (signal_end_recording w2) as [w3 [[] | e]]; [| done].
  rewrite !bind_run.
  rewrite (for_each_ext lv _ _ w3 (extend_list_variable_eq md)).
  destruct (for_each lv _ w3) as [w4 [[] | e]]; [| done].
  apply for_each_ext, extend_object_variable_eq.
Qed.

(** C8. Without a stream handle, and with a search that finds none, the
    session returns normally: the recorder and its dataset are as before,
    no capture window was opened, and no lifecycle or stimulus hook was
    called. *)
Theorem no_stream_no_effect resolve_byprop pull_samples
    (iterations : Z) (duration rest_duration : Q)
    (additional_variables : list (string * pyval)) (w : world) :
  resolve_byprop 4%Z = [] →
  ∃ w',
    record_loop resolve_byprop pull_samples None iterations duration
      rest_duration additional_variables w = (w', Ok tt)
    ∧ self w' = self w
    ∧ captures w' = captures w
    ∧ hook_calls w' = hook_calls w
    ∧ events w'
      = events w ++ [ResolveByprop 4; Print "No EEG stream was found."].
Proof.
  intros Hnone. eexists. split; [by apply record_loop_absent |].
  split; [done |]. split; [done |]. split; [| done].
  etrans; [apply hook_calls_app | apply app_nil_r].
Qed.

Lemma no_stream_no_effect_witness :
  nothing_found 4%Z = []
  ∧ ∃ w',
      record_loop nothing_found steady_pull None 5 2 2
        [("condition", PyInt 1)] (fresh (__init__ 256 ["condition"]))
      = (w', Ok tt)
      ∧ self w' = self (fresh (__init__ 256 ["condition"]))
      ∧ captures w' = captures (fresh (__init__ 256 ["condition"]))
      ∧ hook_calls w' = hook_calls (fresh (__init__ 256 ["condition"]))
      ∧ events w'
        = events (fresh (__init__ 256 ["condition"]))
          ++ [ResolveByprop 4; Print "No EEG stream was found."].
Proof.
  split; [reflexivity |].
  apply (no_stream_no_effect nothing_found steady_pull 5 2 2
           [("condition", PyInt 1)] (fresh (__init__ 256 ["condition"]))).
  reflexivity.
Defined.

(** C4. When the metadata holds an iterable value whose length is not
    [iterations], the session does nothing to the recorder: the dataset is
    as before, no capture window is opened and no hook is called; and
    whenever a stream is bound, handed in or found, the session ends in
    the assertion failure of the validation. *)
Theorem bad_length_aborts_before_trials resolve_byprop pull_samples
    (stream : option (list StreamInfo)) (iterations : Z)
    (duration rest_duration : Q)
    (additional_variables : list (string * pyval)) (w : world)
    (key : string) (v : pyval) :
  dict_get additional_variables key = Ok v →
  is_iterable v = true →
  ¬ has_length v iterations →
  ∃ w' res,
    record_loop resolve_byprop pull_samples stream iterations duration
      rest_duration additional_variables w = (w', res)
    ∧ self w' = self w
    ∧ captures w' = captures w
    ∧ hook_calls w' = hook_calls w
    ∧ (is_Some (bound_stream resolve_byprop stream) →
       ∃ k, res = Raise (AssertionError k)).
Proof.
  intros Hv Hit Hbad.
  destruct (bound_stream resolve_byprop stream) as [s |] eqn:Hbound.
  - destruct (record_loop_bound resolve_byprop pull_samples stream s iterations
                duration rest_duration additional_variables w Hbound)
      as (w0 & Hself & Hcap & Hhooks & ->).
    rewrite record_loop_some.
    pose proof (validate_spec additional_variables iterations) as Hval.
    destruct (validate additional_variables iterations) as [[lv ov] | e].
    + destruct Hval as (_ & _ & Hall). destruct Hbad. by eapply Hall.
    + destruct Hval as (k & _ & _ & -> & _).
      exists w0, (Raise (AssertionError k)). eauto 10.
  - destruct stream as [s |]; [done |]. cbn in Hbound.
    destruct (resolve_byprop 4%Z) eqn:Hnone; [| done].
    rewrite record_loop_absent by done.
    eexists _, _. split; [reflexivity |].
    split; [done |]. split; [done |].
    split; [etrans; [apply hook_calls_app | apply app_nil_r] |].
    by intros [? ?].
Qed.

Lemma bad_length_aborts_before_trials_witness :
  (dict_get [("label", PyList [PyInt 0; PyInt 1])] "label"
   = Ok (PyList [PyInt 0; PyInt 1])
   ∧ is_iterable (PyList [PyInt 0; PyInt 1]) = true
   ∧ ¬ has_length (PyList [PyInt 0; PyInt 1]) 3)
  ∧ ∃ w' res,
      record_loop muse_found steady_pull None 3 2 2
        [("label", PyList [PyInt 0; PyInt 1])] (fresh (__init__ 256 ["label"]))
      = (w', res)
      ∧ self w' = self (fresh (__init__ 256 ["label"]))
      ∧ captures w' = captures (fresh (__init__ 256 ["label"]))
      ∧ hook_calls w' = hook_calls (fresh (__init__ 256 ["label"]))
      ∧ (is_Some (bound_stream muse_found None) →
         ∃ k, res = Raise (AssertionError k)).
Proof.
  assert (¬ has_length (PyList [PyInt 0; PyInt 1]) 3) as Hbad.
  { intros (n & [= <-] & Hn). discriminate Hn. }
  split; [split; [reflexivity | split; [reflexivity | exact Hbad]] |].
  apply (bad_length_aborts_before_trials muse_found steady_pull None 3 2 2
           [("label", PyList [PyInt 0; PyInt 1])]
           (fresh (__init__ 256 ["label"])) "label"
           (PyList [PyInt 0; PyInt 1]));
    [reflexivity | reflexivity | exact Hbad].
Defined.

(** What a session that returns normally has done to every field: the
    recordings have grown by one window per trial, every key of the
    metadata by its items, and the other fields not at all. *)
Lemma session_fields resolve_byprop pull_samples stream s it d rest md
    (w w' : world) (old : list pyval) :
  record_loop resolve_byprop pull_samples stream it d rest md w = (w', Ok tt) →
  bound_stream resolve_byprop stream = Some s →
  NoDup (dict_keys md) →
  "recordings" ∉ dict_keys md →
  samples (self w) !! "recordings" = Some old →
  (∃ ws, length ws = Z.to_nat it
         ∧ samples (self w') !! "recordings" = Some (old ++ ws))
  ∧ (∀ key, key ∈ dict_keys md →
       ∃ old_k items,
         samples (self w) !! key = Some old_k
         ∧ (if value_iterable md key then list_extension md key
            else object_extension md it key) = Ok items
         ∧ samples (self w') !! key = Some (old_k ++ items))
  ∧ (∀ key, key ∉ dict_keys md → key ≠ "recordings" →
       samples (self w') !! key = samples (self w) !! key)
  ∧ (∀ key v, dict_get md key = Ok v → is_iterable v = true →
       has_length v it).
Proof.
  intros Hrun Hbound Hnd Hrec Hold.
  destruct (record_loop_bound resolve_byprop pull_samples stream s it d rest
              md w Hbound) as (w0 & Hself & _ & _ & Heq).
  rewrite Heq, record_loop_some in Hrun. clear Heq.
  pose proof (validate_spec md it) as Hval.
  destruct (validate md it) as [[lv ov] | e]; [| done].
  destruct Hval as (Hlv & Hov & Hall).
  apply bind_ok_inv in Hrun as ([] & w1 & H1 & Hrun).
  apply bind_ok_inv in Hrun as ([] & w2 & H2 & Hrun).
  apply bind_ok_inv in Hrun as ([] & w3 & H3 & Hrun).
  apply bind_ok_inv in Hrun as ([] & w4 & H4 & H5).
  injection H1 as <-. injection H3 as <-.
  apply trials_effect in H2 as (ws & Hlen & Hlook).
  specialize (Hlen eq_refl). rewrite length_seq in Hlen.
  cbn [self] in *. rewrite Hself in Hlook.
  pose proof (extend_loop_frame _ _ _ _ _ H4) as (_ & _ & Hframe4 & _).
  pose proof (extend_loop_frame _ _ _ _ _ H5) as (_ & _ & Hframe5 & _).
  cbn [self] in *.
  assert (∀ key, key ∈ lv → key ∈ dict_keys md ∧ value_iterable md key = true)
    as Hin_lv.
  { intros key Hkey. subst lv. apply list_elem_of_filter in Hkey. tauto. }
  assert (∀ key, key ∈ ov → key ∈ dict_keys md ∧ value_iterable md key = false)
    as Hin_ov.
  { intros key Hkey. subst ov. apply list_elem_of_filter in Hkey. tauto. }
  assert (NoDup lv) as Hnd_lv by (subst lv; by apply NoDup_filter).
  assert (NoDup ov) as Hnd_ov by (subst ov; by apply NoDup_filter).
  split; [| split; [| split; [| exact Hall]]].
  - exists ws. split; [done |].
    rewrite Hframe5, Hframe4, Hlook
      by (intros Hkey; first [apply Hin_ov in Hkey | apply Hin_lv in Hkey]; tauto).
    rewrite decide_True by done. by rewrite Hold.
  - intros key Hkey.
    assert (key ≠ "recordings") as Hne by (intros ->; contradiction).
    destruct (value_iterable md key) eqn:Hit.
    + assert (key ∈ lv) as Hk by (subst lv; by apply list_elem_of_filter).
      destruct (extend_loop_ok _ _ _ _ Hnd_lv H4 key Hk)
        as (old_k & items & Hold_k & Hitems & Hnew).
      exists old_k, items. cbn [self] in *.
      rewrite Hlook, decide_False in Hold_k by done.
      split; [done |]. split; [done |].
      rewrite Hframe5; [done |]. intros Hk'. apply Hin_ov in Hk'.
      destruct Hk' as [_ Hk']. congruence.
    + assert (key ∈ ov) as Hk by (subst ov; by apply list_elem_of_filter).
      destruct (extend_loop_ok _ _ _ _ Hnd_ov H5 key Hk)
        as (old_k & items & Hold_k & Hitems & Hnew).
      exists old_k, items.
      rewrite Hframe4, Hlook, decide_False in Hold_k; [done | done |].
      intros Hk'. apply Hin_lv in Hk'. destruct Hk' as [_ Hk']. congruence.
  - intros key Hkey Hne.
    rewrite Hframe5, Hframe4, Hlook.
    + by rewrite decide_False.
    + intros Hk. apply Hin_lv in Hk. tauto.
    + intros Hk. apply Hin_ov in Hk. tauto.
Qed.

(** A value that is not iterable adds one entry to its field, the
    product of the value with [iterations]. *)
Lemma scalar_field_grows_by_one resolve_byprop pull_samples stream s it d rest
    md (w w' : world) (old : list pyval) (key : string) (v : pyval) :
  record_loop resolve_byprop pull_samples stream it d rest md w = (w', Ok tt) →
  bound_stream resolve_byprop stream = Some s →
  NoDup (dict_keys md) →
  "recordings" ∉ dict_keys md →
  samples (self w) !! "recordings" = Some old →
  dict_get md key = Ok v →
  is_iterable v = false →
  ∃ old_k x, samples (self w) !! key = Some old_k
    ∧ py_mul v it = Ok x
    ∧ samples (self w') !! key = Some (old_k ++ [x]).
Proof.
  intros Hrun Hbound Hnd Hrec Hold Hv Hit.
  destruct (session_fields _ _ _ _ _ _ _ _ _ _ _ Hrun Hbound Hnd Hrec Hold)
    as (_ & Hkeys & _).
  destruct (Hkeys key) as (old_k & items & Hold_k & Hitems & Hnew).
  { by eapply dict_get_Ok_elem. }
  unfold value_iterable, object_extension in Hitems.
  rewrite Hv, Hit in Hitems. cbn in Hitems.
  destruct (py_mul v it) as [x |]; [| done].
  injection Hitems as <-. eauto.
Qed.

(** C2 (as amended). After a session that returns normally on a bound
    stream, with metadata that does not use the name ["recordings"]: the
    recordings have grown by exactly [iterations] windows; every
    sequence-valued field of the metadata has grown by the items of its
    sequence, of which there are [iterations]; and a field the metadata
    does not mention is as it was.  On a fresh recorder the first two are
    lengths of [iterations]; on a reused one they add up. *)
Theorem session_lengths resolve_byprop pull_samples
    (stream : option (list StreamInfo)) (s : list StreamInfo)
    (iterations : Z) (duration rest_duration : Q)
    (additional_variables : list (string * pyval))
    (w w' : world) (old : list pyval) :
  record_loop resolve_byprop pull_samples stream iterations duration
    rest_duration additional_variables w = (w', Ok tt) →
  bound_stream resolve_byprop stream = Some s →
  NoDup (dict_keys additional_variables) →
  "recordings" ∉ dict_keys additional_variables →
  samples (self w) !! "recordings" = Some old →
  (∃ ws, samples (self w') !! "recordings" = Some (old ++ ws)
         ∧ length ws = Z.to_nat iterations)
  ∧ (∀ key v, dict_get additional_variables key = Ok v →
       is_iterable v = true →
       ∃ old_k items,
         samples (self w) !! key = Some old_k
         ∧ py_iter v = Ok items
         ∧ Z.of_nat (length items) = iterations
         ∧ samples (self w') !! key = Some (old_k ++ items))
  ∧ (∀ key, key ∉ dict_keys additional_variables → key ≠ "recordings" →
       samples (self w') !! key = samples (self w) !! key).
Proof.
  intros Hrun Hbound Hnd Hrec Hold.
  destruct (session_fields _ _ _ _ _ _ _ _ _ _ _ Hrun Hbound Hnd Hrec Hold)
    as ((ws & Hlen & Hws) & Hkeys & Hother & Hall).
  split; [by exists ws |]. split; [| done].
  intros key v Hv Hit.
  destruct (Hkeys key) as (old_k & items & Hold_k & Hitems & Hnew).
  { by eapply dict_get_Ok_elem. }
  unfold value_iterable, list_extension in Hitems.
  rewrite Hv, Hit in Hitems. cbn in Hitems.
  exists old_k, items. split; [done |]. split; [done |]. split; [| done].
  destruct (Hall key v Hv Hit) as (n & Hn & <-).
  destruct (py_iter_length v Hit) as (items' & Hitems' & Hlen').
  congruence.
Qed.

Lemma session_lengths_witness :
  let md := [("label", PyList [PyInt 0; PyInt 1])] in
  let w := fresh (__init__ 2 ["label"; "subject"]) in
  let w' := fst (record_loop muse_found steady_pull None 2 2 2 md w) in
  (record_loop muse_found steady_pull None 2 2 2 md w = (w', Ok tt)
   ∧ bound_stream muse_found None = Some [muse]
   ∧ NoDup (dict_keys md)
   ∧ ("recordings" ∉ dict_keys md)
   ∧ samples (self w) !! "recordings" = Some [])
  ∧ (∃ ws, samples (self w') !! "recordings" = Some ([] ++ ws)
           ∧ length ws = Z.to_nat 2)
  ∧ (∀ key v, dict_get md key = Ok v → is_iterable v = true →
       ∃ old_k items,
         samples (self w) !! key = Some old_k
         ∧ py_iter v = Ok items
         ∧ Z.of_nat (length items) = 2%Z
         ∧ samples (self w') !! key = Some (old_k ++ items))
  ∧ (∀ key, key ∉ dict_keys md → key ≠ "recordings" →
       samples (self w') !! key = samples (self w) !! key).
Proof.
  intros md w w'.
  assert (record_loop muse_found steady_pull None 2 2 2 md w = (w', Ok tt))
    as Hrun by (vm_compute; reflexivity).
  assert (NoDup (dict_keys md)) as Hnd
    by (apply (bool_decide_unpack _); vm_compute; reflexivity).
  assert ("recordings" ∉ dict_keys md) as Hrec
    by (apply (bool_decide_unpack _); vm_compute; reflexivity).
  assert (samples (self w) !! "recordings" = Some []) as Hold
    by (vm_compute; reflexivity).
  split; [exact (conj Hrun (conj eq_refl (conj Hnd (conj Hrec Hold)))) |].
  exact (session_lengths muse_found steady_pull None [muse] 2 2 2 md w w' []
           Hrun eq_refl Hnd Hrec Hold).
Defined.

(** Against C2 as stated: a field declared at construction and left out
    of the metadata stays empty through a session of two trials. *)
Lemma unsupplied_field_stays_empty :
  let run := record_loop muse_found steady_pull (Some [muse]) 2 2 2 []
               (fresh (__init__ 256 ["label"])) in
  snd run = Ok tt
  ∧ (length <$> samples (self (fst run)) !! "recordings") = Some 2
  ∧ samples (self (fst run)) !! "label" = Some []
  ∧ ¬ all_fields_have_length (fst run) 2.
Proof.
  intros run.
  assert (samples (self (fst run)) !! "label" = Some []) as Hlabel
    by (vm_compute; reflexivity).
  split; [vm_compute; reflexivity |].
  split; [vm_compute; reflexivity |].
  split; [exact Hlabel |].
  intros Hall. by specialize (Hall "label" [] Hlabel).
Qed.

(** C1. What line 116 does with a scalar: the session of five trials
    with [{"condition": 7}] returns normally and leaves the single entry
    [7 * 5] in the field, not five entries of [7]. *)
Theorem scalar_metadata_is_multiplied :
  let run := record_loop muse_found steady_pull (Some [muse]) 5 2 2
               [("condition", PyInt 7)] (fresh (__init__ 256 ["condition"])) in
  snd run = Ok tt
  ∧ (length <$> samples (self (fst run)) !! "recordings") = Some 5
  ∧ samples (self (fst run)) !! "condition" = Some [PyInt 35]
  ∧ samples (self (fst run)) !! "condition" ≠ Some (replicate 5 (PyInt 7)).
Proof.
  intros run.
  assert (samples (self (fst run)) !! "condition" = Some [PyInt 35]) as Hc
    by (vm_compute; reflexivity).
  split; [vm_compute; reflexivity |].
  split; [vm_compute; reflexivity |].
  split; [exact Hc |].
  rewrite Hc. discriminate.
Qed.

(** C3. A string is a scalar to the caller and an [Iterable] to the
    check on line 96: with [{"condition": "rest"}] and five iterations the
    four characters of ["rest"] are counted against [iterations], the
    assertion fails and the session ends before anything has happened,
    where the number [7] under the same key passes as a value to repeat. *)
Theorem string_scalar_fails_validation :
  let md := [("condition", PyStr "rest")] in
  let run := record_loop muse_found steady_pull (Some [muse]) 5 2 2 md
               (fresh (__init__ 256 ["condition"])) in
  is_iterable (PyStr "rest") = true
  ∧ validate md 5 = Raise (AssertionError "condition")
  ∧ snd run = Raise (AssertionError "condition")
  ∧ fst run = fresh (__init__ 256 ["condition"])
  ∧ validate [("condition", PyInt 7)] 5 = Ok ([], ["condition"]).
Proof. intros md run. repeat split; vm_compute; reflexivity. Qed.

(** With four iterations the same string passes, and its characters are
    what the field receives. *)
Example string_value_is_spread :
  let run := record_loop muse_found steady_pull (Some [muse]) 4 2 2
               [("condition", PyStr "rest")]
               (fresh (__init__ 256 ["condition"])) in
  snd run = Ok tt
  ∧ samples (self (fst run)) !! "condition"
    = Some [PyStr "r"; PyStr "e"; PyStr "s"; PyStr "t"].
Proof. intros run. split; vm_compute; reflexivity. Qed.

(** ** A key that was never declared *)







(** The same session, run: two windows recorded, both session hooks
    called, then the [KeyError]. *)
Example undeclared_label_run :
  let run := record_loop muse_found steady_pull None 2 2 2
               [("label", PyList [PyInt 0; PyInt 1])] (fresh (__init__ 256 [])) in
  snd run = Raise (KeyError "label")
  ∧ (length <$> samples (self (fst run)) !! "recordings") = Some 2
  ∧ samples (self (fst run)) !! "label" = None
  ∧ hook_calls (fst run)
    = [SignalStartRecording; PresentStimuli; EndStimuli; PresentStimuli;
       EndStimuli; SignalEndRecording].
Proof. intros run. repeat split; vm_compute; reflexivity. Qed.

(** * Further properties of the recorder *)

(** ** Construction *)

Lemma declare_fields_lookup (vars : list string) (m : gmap string (list pyval))
    (key : string) :
  foldl (λ m variable, <[variable := []]> m) m vars !! key
  = if decide (key ∈ vars) then Some [] else m !! key.
Proof.
  revert m. induction vars as [| v vars IH]; intros m; cbn [foldl].
  - rewrite decide_False; [done | apply not_elem_of_nil].
  - rewrite IH. destruct (decide (key ∈ vars)) as [Hin | Hnin].
    + rewrite decide_True; [done | by right].
    + destruct (decide (v = key)) as [-> | Hne].
      * rewrite lookup_insert_eq, decide_True; [done | by left].
      * rewrite lookup_insert_ne, decide_False; [done | | done].
        intros [-> | H]%elem_of_cons; contradiction.
Qed.

(** X1. A new recorder keeps the sampling frequency it was given and
    holds exactly the field ["recordings"] and the declared fields, all
    of them empty, whether or not a name is declared twice or
    ["recordings"] is declared again. *)
Theorem init_fields (sf : Q) (additional_variables : list string)
    (key : string) :
  sampling_frequency (__init__ sf additional_variables) = sf
  ∧ samples (__init__ sf additional_variables) !! key
    = if decide (key = "recordings" ∨ key ∈ additional_variables)
      then Some [] else None.
Proof.
  split; [done |]. cbn [__init__ samples]. rewrite declare_fields_lookup.
  destruct (decide (key ∈ additional_variables)) as [Hin | Hnin].
  - rewrite decide_True; [done | by right].
  - destruct (decide (key = "recordings")) as [-> | Hne].
    + rewrite lookup_singleton_eq, decide_True; [done | by left].
    + rewrite lookup_singleton_ne by done. rewrite decide_False; [done | tauto].
Qed.

(** ** The capture and the window, entry by entry *)

Lemma assemble_spec (pulled : list (list Q)) :
  capture_ok pulled = true →
  ∃ c rows,
    assemble pulled = Ok (Arr2 c (length pulled) rows)
    ∧ wf_array (Arr2 c (length pulled) rows)
    ∧ Forall (λ s, length s = c) pulled
    ∧ ∀ i j, i < c → j < length pulled →
        getitem (Arr2 c (length pulled) rows) i j
        = pulled !! j ≫= λ s, s !! i.
Proof.
  intros Hok. destruct (np_array_ok pulled Hok) as (c & Harr & Hall).
  destruct (assemble_ok pulled Hok) as (C & rows & Hasm & Hwf).
  unfold assemble in Hasm. rewrite Harr in Hasm.
  cbn [rbind transpose ascontiguousarray] in Hasm. injection Hasm as <- <-.
  eexists _, _. split; [unfold assemble; rewrite Harr; reflexivity |].
  split; [done |]. split; [done |].
  intros i j Hi Hj. rewrite getitem_rows.
  change (map ?f (seq 0 c)) with (f <$> seq 0 c).
  rewrite list_lookup_fmap, lookup_seq_lt by done. cbn.
  change (map ?f pulled) with (f <$> pulled). rewrite list_lookup_fmap.
  destruct (lookup_lt_is_Some_2 pulled j Hj) as [s Hs]. rewrite Hs. cbn.
  assert (length s = c) as Hlen.
  { rewrite Forall_forall in Hall. apply Hall. by eapply list_elem_of_lookup_2. }
  destruct (lookup_lt_is_Some_2 s i) as [x Hx]; [lia |].
  rewrite Hx. f_equal. by apply nth_lookup_Some.
Qed.

(** X2. The capture returns the pulled samples channel-major: from [n]
    samples of [c] channels each it builds an array of shape [c, n] whose
    entry [i, j] is channel [i] of the [j]-th sample. *)
Theorem capture_is_channel_major (pulled : list (list Q)) :
  capture_ok pulled = true →
  ∃ out c,
    assemble pulled = Ok out
    ∧ shape out = [c; length pulled]
    ∧ Forall (λ s, length s = c) pulled
    ∧ ∀ i j, i < c → j < length pulled →
        getitem out i j = pulled !! j ≫= λ s, s !! i.
Proof.
  intros Hok.
  destruct (assemble_spec pulled Hok) as (c & rows & Hasm & _ & Hall & Hget).
  exists (Arr2 c (length pulled) rows), c. done.
Qed.

Lemma capture_is_channel_major_witness :
  capture_ok [[1; 10]; [2; 20]; [3; 30]]%Q = true
  ∧ ∃ out c,
      assemble [[1; 10]; [2; 20]; [3; 30]]%Q = Ok out
      ∧ shape out = [c; length [[1; 10]; [2; 20]; [3; 30]]%Q]
      ∧ Forall (λ s, length s = c) [[1; 10]; [2; 20]; [3; 30]]%Q
      ∧ ∀ i j, i < c → j < length [[1; 10]; [2; 20]; [3; 30]]%Q →
          getitem out i j = [[1; 10]; [2; 20]; [3; 30]]%Q !! j ≫= λ s, s !! i.
Proof.
  split; [reflexivity |].
  apply (capture_is_channel_major [[1; 10]; [2; 20]; [3; 30]]%Q). reflexivity.
Defined.



(** X4. A negative product of frequency and duration makes the slice
    count from the end: the normaliser never pads then, it drops the last
    [k] columns of every channel, all of them when the buffer has no more
    than [k]. *)
Theorem padtrim_negative_target (C T k : nat) (rows : list (list Q))
    (sf d : Q) :
  wf_array (Arr2 C T rows) →
  target_length sf d = Ok (- Z.of_nat k)%Z →
  0 < k →
  ∃ out,
    _padtrim_sample (Arr2 C T rows) sf d = Ok out
    ∧ shape out = [C; T - k]
    ∧ wf_array out
    ∧ ∀ i j, i < C → j < T - k →
        getitem out i j = getitem (Arr2 C T rows) i j.
Proof.
  intros [Hlen Hrows] Htl Hk. unfold _padtrim_sample. cbn [shape]. rewrite Htl.
  cbn [rbind].
  destruct (Z.ltb_spec (Z.of_nat T) (- Z.of_nat k)) as [Hlt | _]; [lia |].
  cbn [slice_cols]. unfold slice_stop.
  destruct (Z.ltb_spec (- Z.of_nat k) 0) as [_ | Hge]; [| lia].
  replace (Z.to_nat (Z.of_nat T + - Z.of_nat k)) with (T - k) by lia.
  eexists. split; [reflexivity |]. split; [reflexivity |]. split.
  - split; [by rewrite length_map |].
    apply Forall_forall. intros row' Hin.
    apply list_elem_of_In, in_map_iff in Hin as (row & <- & Hin).
    apply list_elem_of_In in Hin.
    rewrite Forall_forall in Hrows. rewrite length_take, (Hrows row Hin). lia.
  - intros i j Hi Hj. rewrite !getitem_rows.
    change (map ?f rows) with (f <$> rows). rewrite list_lookup_fmap.
    destruct (lookup_lt_is_Some_2 rows i) as [row Hrow]; [lia |].
    rewrite Hrow. cbn. by rewrite lookup_take_lt.
Qed.

Lemma padtrim_negative_target_witness :
  (wf_array (Arr2 1 3 [[7; 8; 9]]%Q)
   ∧ target_length 1 (-1) = Ok (- Z.of_nat 1)%Z
   ∧ 0 < 1)
  ∧ ∃ out,
      _padtrim_sample (Arr2 1 3 [[7; 8; 9]]%Q) 1 (-1) = Ok out
      ∧ shape out = [1; 3 - 1]
      ∧ wf_array out
      ∧ ∀ i j, i < 1 → j < 3 - 1 →
          getitem out i j = getitem (Arr2 1 3 [[7; 8; 9]]%Q) i j.
Proof.
  assert (wf_array (Arr2 1 3 [[7; 8; 9]]%Q)) as Hwf.
  { split; [reflexivity | repeat constructor]. }
  assert (target_length 1 (-1) = Ok (- Z.of_nat 1)%Z) as Htl
    by (vm_compute; reflexivity).
  split; [split; [exact Hwf | split; [exact Htl | lia]] |].
  apply (padtrim_negative_target 1 3 1 [[7; 8; 9]]%Q 1 (-1) Hwf);
    [exact Htl | lia].
Defined.

(** ** What no session undoes *)

Lemma extends_by_same_self P (w w' : world) :
  self w' = self w → extends_by P w w'.
Proof.
  intros Hself. split; [by rewrite Hself |].
  intros key. exists []. rewrite Hself, fmap_app_nil. done.
Qed.

Lemma extends_by_trans P (w1 w2 w3 : world) :
  extends_by P w1 w2 → extends_by P w2 w3 → extends_by P w1 w3.
Proof.
  intros [Hsf1 H1] [Hsf2 H2]. split; [congruence |].
  intros key. destruct (H1 key) as (ext1 & Hl1 & HP1).
  destruct (H2 key) as (ext2 & Hl2 & HP2).
  exists (ext1 ++ ext2). split.
  - rewrite Hl2, Hl1. apply fmap_app_app.
  - apply Forall_app. split; [done |]. by rewrite <- Hsf1.
Qed.

Lemma preserves_bind {A B : Type} (R : world → world → Prop)
    (m : M A) (k : A → M B) :
  (∀ x y z, R x y → R y z → R x z) →
  preserves R m → (∀ a, preserves R (k a)) → preserves R (m ≫= k).
Proof.
  intros Htrans Hm Hk w w' r. rewrite bind_run.
  destruct (m w) as [w1 [a | e]] eqn:Hrun.
  - intros Hrest. eapply Htrans; [by eapply Hm | by eapply Hk].
  - intros [= <- <-]. by eapply Hm.
Qed.

Lemma preserves_for_each {A : Type} (R : world → world → Prop)
    (l : list A) (body : A → M unit) :
  (∀ x, R x x) → (∀ x y z, R x y → R y z → R x z) →
  (∀ x, x ∈ l → preserves R (body x)) → preserves R (for_each l body).
Proof.
  intros Hrefl Htrans. induction l as [| x l IH]; intros Hbody.
  - intros w w' r [= <- <-]. apply Hrefl.
  - cbn [for_each]. apply preserves_bind; [done | apply Hbody; by left |].
    intros _. apply IH. intros y Hy. apply Hbody. by right.
Qed.

Lemma update_field_extends P (key : string) (items : list pyval) :
  (∀ sf, Forall (P sf key) items) →
  preserves (extends_by P) (update_field key (λ l, l ++ items)).
Proof.
  intros HP w w' r. unfold update_field.
  destruct (samples (self w) !! key) as [l |] eqn:Hl.
  - intros [= <- <-]. split; [done |]. intros k. cbn.
    destruct (decide (key = k)) as [<- | Hne].
    + exists items. by rewrite lookup_insert_eq, Hl.
    + exists []. by rewrite lookup_insert_ne, fmap_app_nil.
  - intros [= <- <-]. by apply extends_by_same_self.
Qed.

(** A window that a trial returns came out of the normaliser. *)
Lemma record_one_iteration_window pull_samples stream d rest sf w w' out :
  record_one_iteration pull_samples stream d rest sf w = (w', Ok out) →
  ∃ raw, _padtrim_sample raw sf d = Ok out.
Proof.
  unfold record_one_iteration, sleep, _record_eeg_sample, present_stimuli,
    end_stimuli.
  run_monad.
  destruct (Qle_bool 0 rest); cbn; [| done].
  destruct (stream !! 0) as [info |]; cbn; [| done].
  destruct (assemble _) as [raw | e]; cbn; [| done].
  destruct (_padtrim_sample raw sf d) as [out' |] eqn:Hout; [| done].
  intros [= _ <-]. eauto.
Qed.

Lemma record_trial_extends P pull_samples stream d rest i :
  (∀ sf raw out, _padtrim_sample raw sf d = Ok out →
     P sf "recordings" (PyArray out)) →
  preserves (extends_by P) (record_trial pull_samples stream d rest i).
Proof.
  intros HP w w' r. unfold record_trial, get_sampling_frequency.
  rewrite !bind_run.
  destruct (record_one_iteration _ _ _ _ _ w) as [w1 [sample | e]] eqn:Hone.
  - pose proof (record_one_iteration_self _ _ _ _ _ _ _ _ Hone) as Hself.
    apply record_one_iteration_window in Hone as [raw Hraw].
    unfold update_field. rewrite Hself.
    destruct (samples (self w) !! "recordings") as [l |] eqn:Hl.
    + intros [= <- <-]. split; [cbn; by rewrite Hself |]. intros k. cbn.
      destruct (decide ("recordings" = k)) as [<- | Hne].
      * exists [PyArray sample]. rewrite lookup_insert_eq, Hl.
        split; [done |]. constructor; [by eapply HP | done].
      * exists []. by rewrite lookup_insert_ne, fmap_app_nil.
    + intros [= <- <-]. by apply extends_by_same_self.
  - apply record_one_iteration_self in Hone.
    intros [= <- <-]. by apply extends_by_same_self.
Qed.

Lemma extend_with_extends P (ext : string → result (list pyval)) (key : string) :
  (∀ sf items, ext key = Ok items → Forall (P sf key) items) →
  preserves (extends_by P) (extend_with ext key).
Proof.
  intros HP w w' r. rewrite extend_with_run.
  destruct (samples (self w) !! key) as [l |] eqn:Hl;
    [| intros [= <- <-]; by apply extends_by_same_self].
  destruct (ext key) as [items |] eqn:Hext;
    [| intros [= <- <-]; by apply extends_by_same_self].
  intros [= <- <-]. split; [done |]. intros k. cbn.
  destruct (decide (key = k)) as [<- | Hne].
  - exists items. rewrite lookup_insert_eq, Hl. split; [done | by apply HP].
  - exists []. by rewrite lookup_insert_ne, fmap_app_nil.
Qed.

(** Whatever a session does and however it ends, it only appends: items
    that the metadata supplies, and windows that the normaliser made. *)
Lemma record_loop_extends P resolve_byprop pull_samples stream it d rest md :
  (∀ sf raw out, _padtrim_sample raw sf d = Ok out →
     P sf "recordings" (PyArray out)) →
  (∀ sf key items, key ∈ dict_keys md → Forall (P sf key) items) →
  preserves (extends_by P)
    (record_loop resolve_byprop pull_samples stream it d rest md).
Proof.
  intros Hwin Hmd w w' r Hrun.
  destruct (bound_stream resolve_byprop stream) as [s |] eqn:Hbound.
  - destruct (record_loop_bound resolve_byprop pull_samples stream s it d rest
                md w Hbound) as (w0 & Hself & _ & _ & Heq).
    rewrite Heq, record_loop_some in Hrun. clear Heq.
    apply (extends_by_trans P w w0 w'); [by apply extends_by_same_self |].
    pose proof (validate_spec md it) as Hval.
    destruct (validate md it) as [[lv ov] | e];
      [| injection Hrun as <- <-; by apply extends_by_same_self].
    destruct Hval as (Hlv & Hov & _).
    revert Hrun. generalize w0 w' r. clear w w0 w' r Hself.
    change (preserves (extends_by P)
      (_ ← signal_start_recording;
       _ ← for_range it (record_trial pull_samples s d rest);
       _ ← signal_end_recording;
       _ ← for_each lv (extend_with (list_extension md));
       for_each ov (extend_with (object_extension md it)))).
    assert (∀ x y z, extends_by P x y → extends_by P y z → extends_by P x z)
      as Htrans by apply extends_by_trans.
    assert (∀ x, extends_by P x x) as Hrefl
      by (intros x; by apply extends_by_same_self).
    assert (∀ ev, preserves (extends_by P) (emit ev)) as Hemit.
    { intros ev w w' r [= <- <-]. by apply extends_by_same_self. }
    apply preserves_bind; [done | apply Hemit |]. intros _.
    apply preserves_bind; [done | |].
    { apply preserves_for_each; [done..|]. intros i _.
      by apply record_trial_extends. }
    intros _. apply preserves_bind; [done | apply Hemit |]. intros _.
    apply preserves_bind; [done | |].
    + apply preserves_for_each; [done..|]. intros key Hkey.
      apply extend_with_extends. intros sf items _. apply Hmd.
      subst lv. apply list_elem_of_filter in Hkey. tauto.
    + intros _. apply preserves_for_each; [done..|]. intros key Hkey.
      apply extend_with_extends. intros sf items _. apply Hmd.
      subst ov. apply list_elem_of_filter in Hkey. tauto.
  - destruct stream as [s |]; [done |]. cbn in Hbound.
    destruct (resolve_byprop 4%Z) eqn:Hnone; [| done].
    rewrite record_loop_absent in Hrun by done.
    injection Hrun as <- <-. by apply extends_by_same_self.
Qed.

(** X5. Whatever its arguments and however it ends, normally or with an
    exception, a session only appends to the dataset: the sampling
    frequency is kept, no field is created or removed, and what a field
    held before is a prefix of what it holds afterwards. *)
Theorem session_append_only resolve_byprop pull_samples
    (stream : option (list StreamInfo)) (iterations : Z)
    (duration rest_duration : Q)
    (additional_variables : list (string * pyval))
    (w w' : world) (res : result unit) :
  record_loop resolve_byprop pull_samples stream iterations duration
    rest_duration additional_variables w = (w', res) →
  sampling_frequency (self w') = sampling_frequency (self w)
  ∧ dom (samples (self w')) = dom (samples (self w))
  ∧ ∀ key old, samples (self w) !! key = Some old →
      ∃ ext, samples (self w') !! key = Some (old ++ ext).
Proof.
  intros Hrun.
  destruct (record_loop_extends (λ _ _ _, True) resolve_byprop pull_samples
              stream iterations duration rest_duration additional_variables)
    with (w := w) (w' := w') (r := res) as [Hsf Hext]; [done | | done |].
  { intros sf key items _. by apply Forall_forall. }
  split; [done |]. split.
  - apply set_eq. intros key. rewrite !elem_of_dom.
    destruct (Hext key) as (ext & -> & _).
    destruct (samples (self w) !! key); cbn; split; intros [? ?]; eauto; done.
  - intros key old Hold. destruct (Hext key) as (ext & Hl & _).
    exists ext. by rewrite Hl, Hold.
Qed.

Lemma session_append_only_witness :
  let md := [("label", PyList [PyInt 0; PyInt 1]); ("site", PyInt 3)] in
  let w := fresh (__init__ 2 ["label"]) in
  let run := record_loop muse_found steady_pull None 2 2 2 md w in
  run = (fst run, snd run)
  ∧ sampling_frequency (self (fst run)) = sampling_frequency (self w)
  ∧ dom (samples (self (fst run))) = dom (samples (self w))
  ∧ ∀ key old, samples (self w) !! key = Some old →
      ∃ ext, samples (self (fst run)) !! key = Some (old ++ ext).
Proof.
  intros md w run.
  split; [exact (surjective_pairing run) |].
  exact (session_append_only muse_found steady_pull None 2 2 2 md w
           (fst run) (snd run) (surjective_pairing run)).
Defined.

Lemma padtrim_time_axis (raw out : ndarray) (sf d : Q) (t : Z) :
  target_length sf d = Ok t → (0 ≤ t)%Z →
  _padtrim_sample raw sf d = Ok out →
  ∃ C, shape out = [C; Z.to_nat t].
Proof.
  intros Ht Hnn. destruct raw as [v | C T rows]; [done |].
  unfold _padtrim_sample. cbn [shape]. rewrite Ht. cbn [rbind].
  destruct (Z.ltb_spec (Z.of_nat T) t) as [Hlt | Hge].
  - cbn [np_pad]. intros [= <-]. exists (0 + C + 0). cbn [shape].
    f_equal. f_equal. lia.
  - cbn [slice_cols]. intros [= <-]. exists C. cbn [shape].
    by rewrite slice_stop_within by lia.
Qed.

(** X6. Every window that a session adds to the recordings has, on its
    time axis, the floor of the float product of frequency and duration,
    however many samples its capture pulled and however the session
    ends, as long as frequency and duration are positive, their product
    is finite and the metadata does not write to ["recordings"] itself. *)
Theorem recorded_windows_have_target_length resolve_byprop pull_samples
    (stream : option (list StreamInfo)) (iterations : Z)
    (duration rest_duration p : Q)
    (additional_variables : list (string * pyval))
    (w w' : world) (res : result unit) (old : list pyval) :
  record_loop resolve_byprop pull_samples stream iterations duration
    rest_duration additional_variables w = (w', res) →
  (0 < sampling_frequency (self w))%Q →
  (0 < duration)%Q →
  float_product (sampling_frequency (self w)) duration = Ok (Finite p) →
  "recordings" ∉ dict_keys additional_variables →
  samples (self w) !! "recordings" = Some old →
  ∃ ws,
    samples (self w') !! "recordings" = Some (old ++ ws)
    ∧ Forall (λ x, ∃ a C,
                x = PyArray a ∧ shape a = [C; Z.to_nat (Qfloor p)]) ws.
Proof.
  intros Hrun Hsf Hd Hp Hrec Hold.
  destruct (target_length_positive _ _ _ Hsf Hd Hp) as [Htl Hnn].
  set (P := λ (sf : Q) (key : string) (x : pyval),
         key = "recordings" →
         ∀ t, target_length sf duration = Ok t → (0 ≤ t)%Z →
         ∃ a C, x = PyArray a ∧ shape a = [C; Z.to_nat t]).
  destruct (record_loop_extends P resolve_byprop pull_samples
              stream iterations duration rest_duration additional_variables)
    with (w := w) (w' := w') (r := res) as [_ Hext]; [| | done |].
  { intros sf raw out Hout _ t Ht Ht0.
    destruct (padtrim_time_axis raw out sf duration t) as [C HC]; [done.. |].
    by exists out, C. }
  { intros sf key items Hkey. apply Forall_forall. intros x _ ->.
    contradiction. }
  destruct (Hext "recordings") as (ws & Hl & HP).
  exists ws. split; [by rewrite Hl, Hold |].
  eapply Forall_impl; [exact HP |]. intros x Hx. by apply Hx.
Qed.

Lemma recorded_windows_have_target_length_witness :
  let md := [("label", PyList [PyInt 0; PyInt 1])] in
  let w := fresh (__init__ 10 ["label"]) in
  let run := record_loop muse_found steady_pull None 2 (7 # 10) 2 md w in
  (run = (fst run, snd run)
   ∧ (0 < sampling_frequency (self w))%Q
   ∧ (0 < 7 # 10)%Q
   ∧ float_product (sampling_frequency (self w)) (7 # 10) = Ok (Finite 7)
   ∧ ("recordings" ∉ dict_keys md)
   ∧ samples (self w) !! "recordings" = Some [])
  ∧ ∃ ws,
      samples (self (fst run)) !! "recordings" = Some ([] ++ ws)
      ∧ Forall (λ x, ∃ a C,
                  x = PyArray a ∧ shape a = [C; Z.to_nat (Qfloor 7)]) ws.
Proof.
  intros md w run.
  assert (float_product (sampling_frequency (self w)) (7 # 10) = Ok (Finite 7))
    as Hp by (vm_compute; reflexivity).
  assert ("recordings" ∉ dict_keys md) as Hrec
    by (apply (bool_decide_unpack _); vm_compute; reflexivity).
  assert (samples (self w) !! "recordings" = Some []) as Hold
    by (vm_compute; reflexivity).
  split.
  - exact (conj (surjective_pairing run)
             (conj eq_refl (conj eq_refl (conj Hp (conj Hrec Hold))))).
  - exact (recorded_windows_have_target_length muse_found steady_pull None 2
             (7 # 10) 2 7 md w (fst run) (snd run) [] (surjective_pairing run)
             eq_refl eq_refl Hp Hrec Hold).
Defined.

(** That session, run: both windows have seven columns. *)
Example recorded_windows_seven_columns :
  let run := record_loop muse_found steady_pull None 2 (7 # 10) 2
               [("label", PyList [PyInt 0; PyInt 1])]
               (fresh (__init__ 10 ["label"])) in
  snd run = Ok tt
  ∧ samples (self (fst run)) !! "recordings"
    = Some [PyArray (Arr2 2 7 [[0; 0; 0; 0; 0; 0; 0]; [1; 1; 1; 0; 0; 0; 0]]%Q);
            PyArray (Arr2 2 7 [[1; 1; 1; 0; 0; 0; 0]; [1; 1; 1; 0; 0; 0; 0]]%Q)].
Proof. intros run. split; vm_compute; reflexivity. Qed.

(** ** How a session can fail, and what its hooks see *)

Lemma assemble_raises (pulled : list (list Q)) (e : exn) :
  assemble pulled = Raise e → e = ValueError.
Proof.
  unfold assemble, np_array. destruct pulled as [| s rest]; [done |].
  destruct (forallb _ rest); cbn; [done | by intros [= <-]].
Qed.

Lemma padtrim_raises (raw : ndarray) (sf d : Q) (e : exn) :
  _padtrim_sample raw sf d = Raise e → e = ValueError ∨ e = OverflowError.
Proof.
  destruct raw as [v | C T rows]; [intros [= <-]; by left |].
  unfold _padtrim_sample, target_length. cbn [shape].
  destruct (float_product sf d) as [[p | s |] | e'] eqn:Hp; cbn.
  - by destruct (Z.of_nat T <? py_int p)%Z.
  - intros [= <-]. by right.
  - intros [= <-]. by left.
  - intros [= <-]. right. revert Hp. unfold float_product, as_float.
    destruct (round64 sf); cbn [rbind]; congruence.
Qed.

(** One pass of the trial loop: what it adds to the recordings and to
    the events, and the exceptions it can end in. *)
Lemma record_trial_outcome pull_samples stream d rest i w w' res :
  record_trial pull_samples stream d rest i w = (w', res) →
  ∃ ws evs,
    (∀ key, samples (self w') !! key
            = if decide (key = "recordings")
              then (λ l, l ++ ws) <$> samples (self w) !! key
              else samples (self w) !! key)
    ∧ events w' = events w ++ evs
    ∧ Forall (trial_event rest) evs
    ∧ match res with
      | Ok _ => length ws = 1
                ∧ evs = [Sleep rest; PresentStimuli; EndStimuli]
                ∧ captures w' = S (captures w)
      | Raise e => ws = []
                   ∧ (e = ValueError ∨ e = OverflowError
                      ∨ e = KeyError "recordings"
                      ∨ (e = IndexError ∧ stream !! 0 = None))
      end.
Proof.
  unfold record_trial, get_sampling_frequency, record_one_iteration, sleep,
    _record_eeg_sample, present_stimuli, end_stimuli, update_field.
  run_monad.
  destruct (Qle_bool 0 rest); cbn.
  2:{ intros [= <- <-]. exists [], []. rewrite app_nil_r.
      split; [intros key; rewrite fmap_app_nil; by case_decide |]. split; [done |].
      split; [done |]. split; [done | by left]. }
  destruct (stream !! 0) as [info |] eqn:Hs; cbn.
  2:{ intros [= <- <-]. exists [], [Sleep rest; PresentStimuli]. cbn.
      rewrite <- app_assoc.
      split; [intros key; rewrite fmap_app_nil; by case_decide |]. split; [done |].
      split; [repeat constructor; unfold trial_event; tauto |].
      split; [done |]. right. right. by right. }
  destruct (assemble _) as [raw | e] eqn:Hraw; cbn.
  2:{ intros [= <- <-]. exists [], [Sleep rest; PresentStimuli]. cbn.
      rewrite <- app_assoc.
      split; [intros key; rewrite fmap_app_nil; by case_decide |]. split; [done |].
      split; [repeat constructor; unfold trial_event; tauto |].
      split; [done |]. left. by eapply assemble_raises. }
  destruct (_padtrim_sample raw _ d) as [out | e] eqn:Hout; cbn.
  2:{ intros [= <- <-]. exists [], [Sleep rest; PresentStimuli; EndStimuli]. cbn.
      rewrite <- !app_assoc.
      split; [intros key; rewrite fmap_app_nil; by case_decide |]. split; [done |].
      split; [repeat constructor; unfold trial_event; tauto |].
      split; [done |]. destruct (padtrim_raises _ _ _ _ Hout) as [-> | ->]; tauto. }
  destruct (samples (self w) !! "recordings") as [l |] eqn:Hl.
  - intros [= <- <-]. exists [PyArray out], [Sleep rest; PresentStimuli; EndStimuli].
    cbn. rewrite <- !app_assoc. split.
    { intros key. rewrite lookup_insert.
      repeat case_decide; subst; try done. by rewrite Hl. }
    split; [done |].
    split; [repeat constructor; unfold trial_event; tauto | done].
  - intros [= <- <-]. exists [], [Sleep rest; PresentStimuli; EndStimuli]. cbn.
    rewrite <- !app_assoc.
    split; [intros key; rewrite fmap_app_nil; by case_decide |]. split; [done |].
    split; [repeat constructor; unfold trial_event; tauto |].
    split; [done |]. right. right. by left.
Qed.

Lemma trials_outcome pull_samples stream d rest (l : list nat) w w' res :
  for_each l (record_trial pull_samples stream d rest) w = (w', res) →
  ∃ ws evs,
    (∀ key, samples (self w') !! key
            = if decide (key = "recordings")
              then (λ l, l ++ ws) <$> samples (self w) !! key
              else samples (self w) !! key)
    ∧ events w' = events w ++ evs
    ∧ Forall (trial_event rest) evs
    ∧ match res with
      | Ok _ => length ws = length l
                ∧ evs = mjoin (replicate (length l)
                                 [Sleep rest; PresentStimuli; EndStimuli])
                ∧ captures w' = captures w + length l
      | Raise e => length ws < length l
                   ∧ (e = ValueError ∨ e = OverflowError
                      ∨ e = KeyError "recordings"
                      ∨ (e = IndexError ∧ stream !! 0 = None))
      end.
Proof.
  revert w. induction l as [| i l IH]; intros w.
  - intros [= <- <-]. exists [], []. rewrite app_nil_r.
    split; [intros key; rewrite fmap_app_nil; by case_decide |].
    split; [done |]. split; [done |]. cbn. split; [done |]. split; [done | lia].
  - cbn [for_each]. rewrite bind_run.
    destruct (record_trial _ _ _ _ i w) as [w1 [[] | e]] eqn:Hone;
      apply record_trial_outcome in Hone
        as (ws1 & evs1 & Hlook1 & Hev1 & Hall1 & Hres1).
    + destruct Hres1 as (Hlen1 & -> & Hcap1).
      intros Hrest. apply IH in Hrest
        as (ws2 & evs2 & Hlook2 & Hev2 & Hall2 & Hres2).
      exists (ws1 ++ ws2), ([Sleep rest; PresentStimuli; EndStimuli] ++ evs2).
      split.
      { intros key. rewrite Hlook2, Hlook1.
        case_decide; [apply fmap_app_app | done]. }
      split; [by rewrite Hev2, Hev1, <- app_assoc |].
      split; [apply Forall_app; by split |].
      destruct res as [[] | e].
      * destruct Hres2 as (Hlen2 & -> & Hcap2).
        split; [rewrite length_app, Hlen1, Hlen2; done |].
        split; [done |]. rewrite Hcap2, Hcap1. cbn [length]. lia.
      * destruct Hres2 as (Hlen2 & He).
        split; [rewrite length_app, Hlen1; cbn [length]; lia | done].
    + destruct Hres1 as (-> & He).
      intros [= <- <-]. exists [], evs1.
      split; [done |]. split; [done |]. split; [done |].
      split; [cbn; lia | done].
Qed.

Lemma extension_raises (md : list (string * pyval)) (it : Z) (key : string)
    (e : exn) :
  list_extension md key = Raise e ∨ object_extension md it key = Raise e →
  e = KeyError key ∨ e = TypeError ∨ e = OverflowError.
Proof.
  unfold list_extension, object_extension.
  assert (∀ e', dict_get md key = Raise e' → e' = KeyError key) as Hget.
  { induction md as [| [k v] md IH]; cbn; [by intros e' [= <-] |].
    intros e'. case_decide; [done | apply IH]. }
  destruct (dict_get md key) as [v | e'] eqn:Hv; cbn.
  - intros [H | H]; right.
    + left. destruct v as [| | | | | []]; cbn in H; congruence.
    + destruct v as [| n | x | | |]; cbn in H; try discriminate H.
      * left. congruence.
      * right. unfold float_of_int, as_float in H.
        destruct (round64 (inject_Z it)); cbn in H; congruence.
  - intros [[= <-] | [= <-]]; left; by apply Hget.
Qed.

Lemma extend_loop_raises (ext : string → result (list pyval)) (l : list string)
    (w w' : world) (e : exn) :
  for_each l (extend_with ext) w = (w', Raise e) →
  ∃ key, e = KeyError key ∨ ext key = Raise e.
Proof.
  revert w. induction l as [| k l IH]; intros w; [done |].
  cbn [for_each]. rewrite bind_run, extend_with_run.
  destruct (samples (self w) !! k) as [old |];
    [| intros [= _ <-]; exists k; by left].
  destruct (ext k) as [items | e'] eqn:Hext;
    [| intros [= _ <-]; exists k; by right].
  apply IH.
Qed.

(** With the search, a session on a bound stream starts from a world
    that differs by the event of the search only. *)
Lemma record_loop_bound_events resolve_byprop pull_samples stream s it d rest
    md w :
  bound_stream resolve_byprop stream = Some s →
  ∃ w0, self w0 = self w ∧ captures w0 = captures w
    ∧ events w0 = events w ++ discovery_events stream
    ∧ record_loop resolve_byprop pull_samples stream it d rest md w
      = record_loop resolve_byprop pull_samples (Some s) it d rest md w0.
Proof.
  destruct stream as [s' |]; cbn.
  - intros [= ->]. exists w. by rewrite app_nil_r.
  - intros Hs.
    exists {| self := self w; events := events w ++ [ResolveByprop 4];
              captures := captures w |}.
    split; [done |]. split; [done |]. split; [done |].
    unfold record_loop, _initiate_stream. rewrite !bind_run. cbn.
    destruct (resolve_byprop 4%Z) as [| i l]; [done |].
    by injection Hs as <-.
Qed.

(** A session that ends in [ValueError] or [IndexError] ended inside a
    trial. *)
Lemma trial_failure resolve_byprop pull_samples stream it d rest md
    (w w' : world) (e : exn) :
  record_loop resolve_byprop pull_samples stream it d rest md w
  = (w', Raise e) →
  e = ValueError ∨ e = IndexError →
  ∃ s ws evs,
    bound_stream resolve_byprop stream = Some s
    ∧ (∀ key, samples (self w') !! key
              = if decide (key = "recordings")
                then (λ l, l ++ ws) <$> samples (self w) !! key
                else samples (self w) !! key)
    ∧ length ws < Z.to_nat it
    ∧ events w'
      = events w ++ discovery_events stream ++ [SignalStartRecording] ++ evs
    ∧ Forall (trial_event rest) evs
    ∧ (e = IndexError → s !! 0 = None).
Proof.
  intros Hrun He.
  destruct (bound_stream resolve_byprop stream) as [s |] eqn:Hbound; cycle 1.
  { destruct stream as [s |]; [done |]. cbn in Hbound.
    destruct (resolve_byprop 4%Z) eqn:Hnone; [| done].
    by rewrite record_loop_absent in Hrun. }
  destruct (record_loop_bound_events resolve_byprop pull_samples stream s it d
              rest md w Hbound) as (w0 & Hself & _ & Hev0 & Heq).
  rewrite Heq, record_loop_some in Hrun. clear Heq.
  pose proof (validate_spec md it) as Hval.
  destruct (validate md it) as [[lv ov] | e'].
  2:{ destruct Hval as (k & _ & _ & -> & _). injection Hrun as _ <-.
      destruct He; done. }
  clear Hval. rewrite bind_run in Hrun.
  unfold signal_start_recording at 1, emit at 1 in Hrun.
  rewrite bind_run in Hrun. unfold for_range in Hrun.
  destruct (for_each (seq 0 (Z.to_nat it)) _ _) as [w2 [[] | e2]] eqn:Htr;
    apply trials_outcome in Htr as (ws & evs & Hlook & Hev & Hall & Hres).
  - (* the trials all succeeded: the closing loops raise neither *)
    exfalso. rewrite bind_run in Hrun.
    unfold signal_end_recording at 1, emit at 1 in Hrun.
    rewrite bind_run in Hrun.
    destruct (for_each lv _ _) as [w4 [[] | e4]] eqn:H4.
    + apply extend_loop_raises in Hrun as [key [-> | Hext]];
        [destruct He; done |].
      destruct (extension_raises md it key e) as [-> | [-> | ->]];
        [by right | destruct He; done..].
    + injection Hrun as _ <-.
      apply extend_loop_raises in H4 as [key [-> | Hext]];
        [destruct He; done |].
      destruct (extension_raises md it key e4) as [-> | [-> | ->]];
        [by left | destruct He; done..].
  - injection Hrun as <- <-. destruct Hres as (Hlen & Hcase).
    rewrite length_seq in Hlen.
    exists s, ws, evs. split; [done |].
    split; [intros key; rewrite Hlook; cbn [self]; by rewrite Hself |].
    split; [done |].
    split; [rewrite Hev; cbn [events]; by rewrite Hev0, <- !app_assoc |].
    split; [done |].
    intros ->. destruct Hcase as [? | [? | [? | [_ ?]]]]; done.
Qed.

(** X7. A session that ends in [ValueError] or [IndexError] was stopped
    inside a trial: fewer than [iterations] windows were added to the
    recordings, no other field was touched (the metadata is not written),
    and after the opening hook only trial events occurred, so the closing
    session hook was never called. *)
Theorem failed_trial_skips_closing resolve_byprop pull_samples
    (stream : option (list StreamInfo)) (iterations : Z)
    (duration rest_duration : Q)
    (additional_variables : list (string * pyval))
    (w w' : world) (e : exn) :
  record_loop resolve_byprop pull_samples stream iterations duration
    rest_duration additional_variables w = (w', Raise e) →
  e = ValueError ∨ e = IndexError →
  (∀ key, key ≠ "recordings" →
     samples (self w') !! key = samples (self w) !! key)
  ∧ (∃ ws, samples (self w') !! "recordings"
           = (λ l, l ++ ws) <$> samples (self w) !! "recordings"
           ∧ length ws < Z.to_nat iterations)
  ∧ ∃ evs,
      events w'
      = events w ++ discovery_events stream ++ [SignalStartRecording] ++ evs
      ∧ Forall (trial_event rest_duration) evs
      ∧ SignalEndRecording ∉ evs.
Proof.
  intros Hrun He.
  destruct (trial_failure _ _ _ _ _ _ _ _ _ _ Hrun He)
    as (s & ws & evs & _ & Hlook & Hlen & Hev & Hall & _).
  split; [| split].
  - intros key Hne. by rewrite Hlook, decide_False.
  - exists ws. by rewrite Hlook, decide_True.
  - exists evs. split; [done |]. split; [done |].
    intros Hin. rewrite Forall_forall in Hall.
    destruct (Hall _ Hin) as [? | [? | ?]]; done.
Qed.

Lemma failed_trial_skips_closing_witness :
  let md := [("label", PyList [PyInt 0; PyInt 1])] in
  let w := fresh (__init__ 256 ["label"]) in
  let run := record_loop muse_found steady_pull (Some []) 2 2 2 md w in
  (run = (fst run, Raise IndexError)
   ∧ (IndexError = ValueError ∨ IndexError = IndexError))
  ∧ (∀ key, key ≠ "recordings" →
       samples (self (fst run)) !! key = samples (self w) !! key)
  ∧ (∃ ws, samples (self (fst run)) !! "recordings"
           = (λ l, l ++ ws) <$> samples (self w) !! "recordings"
           ∧ length ws < Z.to_nat 2)
  ∧ ∃ evs,
      events (fst run)
      = events w ++ discovery_events (Some []) ++ [SignalStartRecording] ++ evs
      ∧ Forall (trial_event 2) evs
      ∧ SignalEndRecording ∉ evs.
Proof.
  intros md w run.
  assert (run = (fst run, Raise IndexError)) as Hrun
    by (vm_compute; reflexivity).
  split; [exact (conj Hrun (or_intror eq_refl)) |].
  exact (failed_trial_skips_closing muse_found steady_pull (Some []) 2 2 2 md w
           (fst run) IndexError Hrun (or_intror eq_refl)).
Defined.

(** X8. [IndexError] has one cause: the caller handed in an empty list
    of streams.  A session that searches for its stream never raises it,
    since the search yields either nothing or a list with a first
    element. *)
Theorem index_error_means_empty_stream_list resolve_byprop pull_samples
    (stream : option (list StreamInfo)) (iterations : Z)
    (duration rest_duration : Q)
    (additional_variables : list (string * pyval)) (w w' : world) :
  record_loop resolve_byprop pull_samples stream iterations duration
    rest_duration additional_variables w = (w', Raise IndexError) →
  stream = Some [].
Proof.
  intros Hrun.
  destruct (trial_failure _ _ _ _ _ _ _ _ _ _ Hrun (or_intror eq_refl))
    as (s & _ & _ & Hbound & _ & _ & _ & _ & Hs).
  specialize (Hs eq_refl). destruct s as [| info s]; [| done].
  destruct stream as [s' |]; cbn in Hbound; [congruence |].
  by destruct (resolve_byprop 4%Z).
Qed.

Lemma index_error_means_empty_stream_list_witness :
  let run := record_loop muse_found steady_pull (Some []) 2 2 2 []
               (fresh (__init__ 256 [])) in
  run = (fst run, Raise IndexError) ∧ Some [] = Some ([] : list StreamInfo).
Proof.
  intros run.
  assert (run = (fst run, Raise IndexError)) as Hrun
    by (vm_compute; reflexivity).
  split; [exact Hrun |].
  symmetry.
  exact (index_error_means_empty_stream_list muse_found steady_pull (Some [])
           2 2 2 [] (fresh (__init__ 256 [])) (fst run) Hrun).
Defined.



(** X10. The events of a session that returns normally on a bound
    stream are, in this order: the search if no handle was given, the
    opening hook, then for each of the [iterations] trials the rest, the
    stimulus-start hook and the stimulus-end hook, and last the closing
    hook; the closing loops emit nothing, and exactly [iterations]
    capture windows were opened. *)
Theorem session_event_order resolve_byprop pull_samples
    (stream : option (list StreamInfo)) (s : list StreamInfo)
    (iterations : Z) (duration rest_duration : Q)
    (additional_variables : list (string * pyval)) (w w' : world) :
  record_loop resolve_byprop pull_samples stream iterations duration
    rest_duration additional_variables w = (w', Ok tt) →
  bound_stream resolve_byprop stream = Some s →
  events w'
  = events w ++ discovery_events stream ++ [SignalStartRecording]
    ++ mjoin (replicate (Z.to_nat iterations)
                [Sleep rest_duration; PresentStimuli; EndStimuli])
    ++ [SignalEndRecording]
  ∧ captures w' = captures w + Z.to_nat iterations.
Proof.
  intros Hrun Hbound.
  destruct (record_loop_bound_events resolve_byprop pull_samples stream s
              iterations duration rest_duration additional_variables w Hbound)
    as (w0 & _ & Hcap0 & Hev0 & Heq).
  rewrite Heq, record_loop_some in Hrun. clear Heq.
  destruct (validate additional_variables iterations) as [[lv ov] | e];
    [| done].
  apply bind_ok_inv in Hrun as ([] & w1 & H1 & Hrun).
  apply bind_ok_inv in Hrun as ([] & w2 & H2 & Hrun).
  apply bind_ok_inv in Hrun as ([] & w3 & H3 & Hrun).
  apply bind_ok_inv in Hrun as ([] & w4 & H4 & H5).
  injection H1 as <-. injection H3 as <-.
  apply trials_outcome in H2 as (ws & evs & _ & Hev2 & _ & _ & -> & Hcap2).
  rewrite length_seq in Hev2, Hcap2.
  apply extend_loop_frame in H4 as (Hev4 & Hcap4 & _).
  apply extend_loop_frame in H5 as (Hev5 & Hcap5 & _).
  cbn [events captures] in *. split.
  - rewrite Hev5, Hev4, Hev2, Hev0. by rewrite <- !app_assoc.
  - rewrite Hcap5, Hcap4, Hcap2. lia.
Qed.

Lemma session_event_order_witness :
  let md := [("label", PyList [PyInt 0; PyInt 1])] in
  let w := fresh (__init__ 2 ["label"]) in
  let w' := fst (record_loop muse_found steady_pull None 2 2 1 md w) in
  (record_loop muse_found steady_pull None 2 2 1 md w = (w', Ok tt)
   ∧ bound_stream muse_found None = Some [muse])
  ∧ events w'
    = events w ++ discovery_events None ++ [SignalStartRecording]
      ++ mjoin (replicate (Z.to_nat 2) [Sleep 1; PresentStimuli; EndStimuli])
      ++ [SignalEndRecording]
  ∧ captures w' = captures w + Z.to_nat 2.
Proof.
  intros md w w'.
  assert (record_loop muse_found steady_pull None 2 2 1 md w = (w', Ok tt))
    as Hrun by (vm_compute; reflexivity).
  split; [exact (conj Hrun eq_refl) |].
  exact (session_event_order muse_found steady_pull None [muse] 2 2 1 md w w'
           Hrun eq_refl).
Defined.


